(** * WentFramework: the OpenAPI document generator ([internal/swagger])

    A shallow embedding of the Go package [swagger] (route extraction,
    schema derivation by reflection, operation building, document assembly)
    together with the properties of the generated document.

    Go maps are finite maps ([gmap]) from strings; pointers that may be
    [nil] are options; [interface{}] values are a small tagged union;
    functions that return an [error] or may panic return an [outcome]. *)

From Stdlib Require Import ZArith Ascii String List.
From stdpp Require Import gmap strings list fin_maps sorting pretty.

Set Warnings "-register-all".
Set Default Proof Using "Type".

Open Scope string_scope.

(** ** Go strings

    A Go string is a sequence of bytes; so is a Rocq [string]. *)

(** The case tables of Go's package [unicode], through the one function
    over them that the program reaches: [strings.Map(unicode.ToLower, s)],
    the string [s] with every rune replaced by its lower-case form.  The
    tables are data of Go's standard library; they are a parameter here, and
    the properties below hold whatever they are. *)
Class CaseTables : Type := { Map_unicode_ToLower : string -> string }.

Module strings.

(** [strings.HasPrefix] *)
Definition HasPrefix (s prefix : string) : bool := String.prefix prefix s.

(** [strings.Contains]: [substr] starts at some position of [s]. *)
Fixpoint Contains (s substr : string) : bool :=
  HasPrefix s substr ||
  match s with
  | EmptyString => false
  | String _ s' => Contains s' substr
  end.

(** [strings.TrimPrefix] *)
Definition TrimPrefix (s prefix : string) : string :=
  if HasPrefix s prefix
  then String.substring (String.length prefix)
                        (String.length s - String.length prefix) s
  else s.

(** [strings.ToLower].  A string all of whose bytes are below
    [utf8.RuneSelf] (128) is lower-cased byte by byte: the letters [A]-[Z]
    are moved to [a]-[z] and every other byte is kept.  Any other string is
    mapped rune by rune through the case tables. *)
Definition lower_byte (c : ascii) : ascii :=
  let n := nat_of_ascii c in
  if (65 <=? n)%nat && (n <=? 90)%nat then ascii_of_nat (n + 32) else c.

Fixpoint isASCII (s : string) : bool :=
  match s with
  | EmptyString => true
  | String c s' => (nat_of_ascii c <? 128)%nat && isASCII s'
  end.

Fixpoint lowerASCII (s : string) : string :=
  match s with
  | EmptyString => EmptyString
  | String c s' => String (lower_byte c) (lowerASCII s')
  end.

Definition ToLower {tables : CaseTables} (s : string) : string :=
  if isASCII s then lowerASCII s else Map_unicode_ToLower s.

(** [strings.Split(s, sep)[0]] for a one-byte separator: the bytes of [s]
    before the first [sep] (all of [s] when there is none). *)
Fixpoint SplitFirst (s : string) (sep : ascii) : string :=
  match s with
  | EmptyString => EmptyString
  | String c s' =>
      if Ascii.eqb c sep then EmptyString else String c (SplitFirst s' sep)
  end.

(** [strings.ReplaceAll] of one byte by another. *)
Fixpoint ReplaceAll (s : string) (old new : ascii) : string :=
  match s with
  | EmptyString => EmptyString
  | String c s' =>
      String (if Ascii.eqb c old then new else c) (ReplaceAll s' old new)
  end.

End strings.

(** ** Results of fallible calls *)

(** A Go [error] value is represented by its message. *)
Definition error := string.

(** What a call produces: a value, a returned [error], or a run-time panic
    (raised here only by [reflect] when a type is asked for fields or for an
    element type it does not have). *)
Inductive outcome (A : Type) : Type :=
| Ok (a : A)
| Err (e : error)
| Panic.
Arguments Ok {A} a.
Arguments Err {A} e.
Arguments Panic {A}.

Definition obind {A B} (m : outcome A) (k : A -> outcome B) : outcome B :=
  match m with
  | Ok a => k a
  | Err e => Err e
  | Panic => Panic
  end.

Declare Scope outcome_scope.
Delimit Scope outcome_scope with outcome.
Notation "'let*' x ':=' m 'in' k" := (obind m (fun x => k))
  (at level 10, x name, m at level 100, k at level 200) : outcome_scope.
Open Scope outcome_scope.

(** ** [reflect]: the part of Go's type descriptors the generator reads *)

Inductive Kind : Set :=
| Invalid | Bool
| Int | Int8 | Int16 | Int32 | Int64
| Uint | Uint8 | Uint16 | Uint32 | Uint64 | Uintptr
| Float32 | Float64 | Complex64 | Complex128
| Array | Chan | Func | Interface | Map | Pointer | Slice
| String_ | Struct | UnsafePointer.

#[global] Instance Kind_eq_dec : EqDecision Kind.
Proof. solve_decision. Defined.

(** A [reflect.Type] as seen through [Kind()], [String()], [Elem()] and
    [NumField()]/[Field(i)].  [tElem = None] and [tFields = None] stand for
    the types on which [Elem] and [NumField] panic.  A struct field carries
    its name, its type and the value of [Tag.Get("json")]. *)
Inductive Type_ : Type :=
  mkType (tKind : Kind) (tString : string)
         (tElem : option Type_) (tFields : option (list StructField))
with StructField : Type :=
  mkStructField (fName : string) (fType : Type_) (fTagJson : string).

Definition tKind (t : Type_) : Kind := let 'mkType k _ _ _ := t in k.
Definition tString (t : Type_) : string := let 'mkType _ s _ _ := t in s.
Definition tElem (t : Type_) : option Type_ := let 'mkType _ _ e _ := t in e.
Definition tFields (t : Type_) : option (list StructField) :=
  let 'mkType _ _ _ fs := t in fs.
Definition fName (f : StructField) : string := let 'mkStructField n _ _ := f in n.
Definition fType (f : StructField) : Type_ := let 'mkStructField _ t _ := f in t.
Definition fTagJson (f : StructField) : string :=
  let 'mkStructField _ _ j := f in j.

(** A type with no element type and no fields. *)
Definition scalar (k : Kind) (name : string) : Type_ := mkType k name None None.

(** ** The document model *)

(** A value held in an [interface{}] field of a schema. *)
Inductive Value : Set :=
| VNil
| VInt (z : Z)
| VString (s : string)
| VBool (b : bool).

#[global] Instance Value_eq_dec : EqDecision Value.
Proof. solve_decision. Defined.

(** [Schema]: a JSON schema.  A field left out of a Go composite literal
    has its zero value: the empty string, the empty map, [None], [VNil]. *)
Inductive Schema : Type := mkSchema {
  Type__ : string;
  Format : string;
  Properties : gmap string Schema;
  Required : list string;
  Items : option Schema;
  Ref : string;
  AdditionalProperties : Value;
  Example : Value
}.

Definition Schema0 : Schema :=
  {| Type__ := ""; Format := ""; Properties := ∅; Required := [];
     Items := None; Ref := ""; AdditionalProperties := VNil;
     Example := VNil |}.

Definition withExample (s : Schema) (v : Value) : Schema :=
  {| Type__ := Type__ s; Format := Format s; Properties := Properties s;
     Required := Required s; Items := Items s; Ref := Ref s;
     AdditionalProperties := AdditionalProperties s; Example := v |}.

(** [Schema{Type: ty}], [Schema{Type: ty, Format: f}],
    [Schema{Type: ty, Example: v}] and [Schema{Ref: r}]. *)
Definition SchemaOfType (ty : string) : Schema :=
  {| Type__ := ty; Format := ""; Properties := ∅; Required := [];
     Items := None; Ref := ""; AdditionalProperties := VNil;
     Example := VNil |}.
Definition SchemaOfTypeFormat (ty f : string) : Schema :=
  {| Type__ := ty; Format := f; Properties := ∅; Required := [];
     Items := None; Ref := ""; AdditionalProperties := VNil;
     Example := VNil |}.
Definition SchemaOfTypeExample (ty : string) (v : Value) : Schema :=
  withExample (SchemaOfType ty) v.
Definition SchemaOfRef (r : string) : Schema :=
  {| Type__ := ""; Format := ""; Properties := ∅; Required := [];
     Items := None; Ref := r; AdditionalProperties := VNil;
     Example := VNil |}.

Record MediaType : Type := mkMediaType { mtSchema : Schema }.

Record Response : Type := mkResponse {
  respDescription : string;
  respContent : gmap string MediaType
}.

Record RequestBody : Type := mkRequestBody {
  rbDescription : string;
  rbRequired : bool;
  rbContent : gmap string MediaType
}.

Record Parameter_ : Type := mkParameter {
  pName : string;
  pIn : string;
  pDescription : string;
  pRequired : bool;
  pSchema : Schema
}.

Record Operation : Type := mkOperation {
  opTags : list string;
  opSummary : string;
  opDescription : string;
  opParameters : list Parameter_;
  opRequestBody : option RequestBody;
  opResponses : gmap string Response
}.

(** [PathItem]: one optional operation per documented verb. *)
Record PathItem : Type := mkPathItem {
  Get : option Operation;
  Post : option Operation;
  Put : option Operation;
  Delete : option Operation
}.

Definition PathItem0 : PathItem :=
  {| Get := None; Post := None; Put := None; Delete := None |}.

Record Server : Type := mkServer { srvURL : string; srvDescription : string }.

Record SwaggerInfo : Type := mkSwaggerInfo {
  Version : string;
  Title : string;
  Description : string;
  Host : string;
  BasePath : string
}.

Record Components : Type := mkComponents { Schemas : gmap string Schema }.

Record SwaggerSpec : Type := mkSwaggerSpec {
  OpenAPI : string;
  Info : SwaggerInfo;
  Servers : list Server;
  Paths : gmap string PathItem;
  Components_ : Components
}.

Record RouteInfo : Type := mkRouteInfo {
  Method : string;
  Path : string;
  HandlerName : string;
  Tags : list string
}.

(** ** Schema Deriver and Example Synthesizer *)

(** [generateExample]: the sample value for a field, [VNil] when there is
    none. *)
Definition generateExample {tables : CaseTables} (fieldName : string)
    (t : Type_) : Value :=
  let lower := strings.ToLower fieldName in
  if lower =? "id" then VInt 1
  else if lower =? "name" then VString "John Doe"
  else if lower =? "email" then VString "john@example.com"
  else if (lower =? "created_at") || (lower =? "updated_at")
  then VString "2025-07-31T15:42:18.792477+03:00"
  else match tKind t with
       | String_ => VString "example string"
       | Int | Int64 | Uint | Uint64 => VInt 1
       | Bool => VBool true
       | _ => VNil
       end.

(** The body of [generateFieldSchema], with the call back into
    [generateModelSchema] (for nested structs) left open. *)
Definition generateFieldSchema_in
    (generateModelSchema : Type_ -> outcome Schema) (t : Type_)
  : outcome Schema :=
  match tKind t with
  | String_ => Ok (SchemaOfType "string")
  | Int | Int8 | Int16 | Int32 | Int64 => Ok (SchemaOfType "integer")
  | Uint | Uint8 | Uint16 | Uint32 | Uint64 =>
      Ok (SchemaOfTypeFormat "integer" "int64")
  | Float32 | Float64 => Ok (SchemaOfType "number")
  | Bool => Ok (SchemaOfType "boolean")
  | Slice =>
      Ok {| Type__ := "array"; Format := ""; Properties := ∅; Required := [];
            Items := Some (SchemaOfType "string"); Ref := "";
            AdditionalProperties := VNil; Example := VNil |}
  | Struct =>
      if tString t =? "time.Time"
      then Ok (SchemaOfTypeFormat "string" "date-time")
      else generateModelSchema t
  | _ => Ok (SchemaOfType "string")
  end.

(** One iteration of the field loop of [generateModelSchema]; [fieldSchema]
    is the schema derived for the field's type. *)
Definition addField {tables : CaseTables} (schema : Schema)
    (field : StructField) (fieldSchema : Schema) : Schema :=
  let jsonTag := fTagJson field in
  let jsonName :=
    let n := strings.SplitFirst jsonTag "," in
    if n =? "" then strings.ToLower (fName field) else n in
  let fieldSchema :=
    match generateExample jsonName (fType field) with
    | VNil => fieldSchema
    | example => withExample fieldSchema example
    end in
  {| Type__ := Type__ schema; Format := Format schema;
     Properties := <[jsonName := fieldSchema]> (Properties schema);
     Required :=
       if negb (strings.Contains jsonTag "omitempty")
       then Required schema ++ [jsonName] else Required schema;
     Items := Items schema; Ref := Ref schema;
     AdditionalProperties := AdditionalProperties schema;
     Example := Example schema |}.

Section Deriver.

Context {tables : CaseTables}.

(** [generateModelSchema]: an object schema with one property per field
    that has a [json] tag other than ["-"]. *)
Fixpoint generateModelSchema (t : Type_) : outcome Schema :=
  let fields (t : Type_) : outcome Schema :=
    match tFields t with
    | None => Panic
    | Some fs =>
        (fix loop (fs : list StructField) (schema : Schema) : outcome Schema :=
           match fs with
           | [] => Ok schema
           | field :: fs' =>
               if (fTagJson field =? "") || (fTagJson field =? "-")
               then loop fs' schema
               else
                 let* fieldSchema :=
                   generateFieldSchema_in generateModelSchema (fType field) in
                 loop fs' (addField schema field fieldSchema)
           end) fs (SchemaOfType "object")
    end in
  match tKind t with
  | Pointer =>
      match tElem t with
      | None => Panic
      | Some t' => fields t'
      end
  | _ => fields t
  end.

Definition generateFieldSchema : Type_ -> outcome Schema :=
  generateFieldSchema_in generateModelSchema.

End Deriver.

(** [reflect.TypeOf(time.Time{})] and [reflect.TypeOf(models.User{})]. *)
Definition time_Time : Type_ := mkType Struct "time.Time" None (Some []).

Definition models_User : Type_ :=
  mkType Struct "models.User" None
    (Some [ mkStructField "ID" (scalar Uint "uint") "id";
            mkStructField "Name" (scalar String_ "string") "name";
            mkStructField "Email" (scalar String_ "string") "email";
            mkStructField "CreatedAt" time_Time "created_at";
            mkStructField "UpdatedAt" time_Time "updated_at" ]).

(** ** Operation Builder *)

(** [fmt.Sprintf("%s %s", a, b)] *)
Definition Sprintf_s_s (a b : string) : string := a ++ " " ++ b.

(** [generateSummary] *)
Definition generateSummary (method path : string) : string :=
  let cleanPath := strings.TrimPrefix path "/api" in
  if path =? "/api/health" then "Health check"
  else if (method =? "GET") && (cleanPath =? "/users") then "Get all users"
  else if (method =? "GET") && strings.Contains cleanPath "/users/{id}"
  then "Get user by ID"
  else if (method =? "POST") && (cleanPath =? "/users") then "Create new user"
  else if (method =? "PUT") && strings.Contains cleanPath "/users/{id}"
  then "Update user"
  else if (method =? "DELETE") && strings.Contains cleanPath "/users/{id}"
  then "Delete user"
  else Sprintf_s_s method cleanPath.

(** A response whose only content is an [application/json] body with the
    given schema. *)
Definition jsonResponse (description : string) (schema : Schema) : Response :=
  {| respDescription := description;
     respContent := {[ "application/json" := mkMediaType schema ]} |}.

Definition refResponse : string := "#/components/schemas/Response".
Definition refErrorResponse : string := "#/components/schemas/ErrorResponse".

(** [generateResponses] *)
Definition generateResponses (method path : string) : gmap string Response :=
  let responses : gmap string Response := ∅ in
  if path =? "/api/health" then
    <["200" := jsonResponse "Health check successful"
        {| Type__ := "object"; Format := "";
           Properties :=
             {[ "status" := SchemaOfTypeExample "string" (VString "healthy");
                "message" :=
                  SchemaOfTypeExample "string" (VString "Server is running") ]};
           Required := []; Items := None; Ref := "";
           AdditionalProperties := VNil; Example := VNil |}]> responses
  else
    let responses :=
      if method =? "GET" then
        if strings.Contains path "{id}" then
          <["404" := jsonResponse "Resource not found"
                       (SchemaOfRef refErrorResponse)]>
            (<["200" := jsonResponse "Resource retrieved successfully"
                          (SchemaOfRef refResponse)]> responses)
        else
          <["200" := jsonResponse "Resources retrieved successfully"
                       (SchemaOfRef refResponse)]> responses
      else if method =? "POST" then
        <["201" := jsonResponse "Resource created successfully"
                     (SchemaOfRef refResponse)]> responses
      else if method =? "PUT" then
        <["200" := jsonResponse "Resource updated successfully"
                     (SchemaOfRef refResponse)]> responses
      else if method =? "DELETE" then
        <["200" := jsonResponse "Resource deleted successfully"
                     (SchemaOfRef refResponse)]> responses
      else responses in
    let responses :=
      <["400" := jsonResponse "Bad request" (SchemaOfRef refErrorResponse)]>
        responses in
    <["500" := jsonResponse "Internal server error"
                 (SchemaOfRef refErrorResponse)]> responses.

(** [generateRequestBody]: [None] is Go's [nil]. *)
Definition generateRequestBody (path : string) : option RequestBody :=
  if strings.Contains path "/users" then
    Some {| rbDescription := "User data";
            rbRequired := true;
            rbContent :=
              {[ "application/json" :=
                   mkMediaType
                     {| Type__ := "object"; Format := "";
                        Properties :=
                          {[ "name" :=
                               SchemaOfTypeExample "string" (VString "John Doe");
                             "email" :=
                               SchemaOfTypeExample "string"
                                 (VString "john@example.com") ]};
                        Required := ["name"; "email"];
                        Items := None; Ref := "";
                        AdditionalProperties := VNil; Example := VNil |} ]} |}
  else None.

(** [generateOperation] *)
Definition generateOperation (route : RouteInfo) : Operation :=
  {| opTags := Tags route;
     opSummary := generateSummary (Method route) (Path route);
     opDescription := "";
     opParameters :=
       if strings.Contains (Path route) "{id}" then
         [ {| pName := "id"; pIn := "path"; pDescription := "Resource ID";
              pRequired := true; pSchema := SchemaOfType "integer" |} ]
       else [];
     opRequestBody :=
       if (Method route =? "POST") || (Method route =? "PUT")
       then generateRequestBody (Path route) else None;
     opResponses := generateResponses (Method route) (Path route) |}.

(** [extractHandlerName] and [extractTags] *)
Definition extractHandlerName (path method : string) : string :=
  method ++ strings.ReplaceAll path "/" "_".

Definition extractTags (path : string) : list string :=
  if strings.Contains path "/users" then ["Users"]
  else if strings.Contains path "/health" then ["Health"]
  else ["API"].

(** ** The route registry ([gorilla/mux])

    The generator reads a router through [Walk], [GetPathTemplate] and
    [GetMethods] only.  A route answers each of the two getters with a value
    or with an error, and may carry sub-routers, whose routes [Walk] visits
    right after the route itself. *)

(** A Go [(T, error)] result. *)
Inductive result (A : Type) : Type :=
| Val (a : A)
| Fail (e : error).
Arguments Val {A} a.
Arguments Fail {A} e.

Inductive Route : Type := mkRoute {
  GetPathTemplate : result string;
  GetMethods : result (list string);
  subroutes : list Route
}.

Definition Router : Type := list Route.

(** What a walk callback returns: [nil], [mux.SkipRouter], or another
    error. *)
Inductive WalkResult : Type :=
| Continue
| SkipRouter
| Abort (e : error).

(** The loop of [Router.walk] over the routes of one router; [visit] walks
    one route together with everything below it. *)
Definition walkRoutes {S : Type} (visit : Route -> S -> S * option error)
  : list Route -> S -> S * option error :=
  fix go (routes : list Route) (s : S) : S * option error :=
    match routes with
    | [] => (s, None)
    | t :: rest =>
        match visit t s with
        | (s', None) => go rest s'
        | (s', Some e) => (s', Some e)
        end
    end.

Fixpoint walkRoute {S : Type} (walkFn : Route -> S -> S * WalkResult)
    (t : Route) (s : S) : S * option error :=
  match walkFn t s with
  | (s', SkipRouter) => (s', None)
  | (s', Abort e) => (s', Some e)
  | (s', Continue) => walkRoutes (walkRoute walkFn) (subroutes t) s'
  end.

(** [Router.Walk]; the state [S] is what the callback's closure mutates. *)
Definition Walk {S : Type} (walkFn : Route -> S -> S * WalkResult)
    (router : Router) (s : S) : S * option error :=
  walkRoutes (walkRoute walkFn) router s.

(** ** Route Extractor *)

(** The callback that [extractRoutes] hands to [Walk]; its state is the
    slice [routes]. *)
Definition extractRoutes_walkFn (route : Route) (routes : list RouteInfo)
  : list RouteInfo * WalkResult :=
  match GetPathTemplate route with
  | Fail _ => (routes, Continue)
  | Val pathTemplate =>
      match GetMethods route with
      | Fail _ => (routes, Continue)
      | Val methods =>
          (fold_left
             (fun (routes : list RouteInfo) (method : string) =>
                routes ++ [ {| Method := method;
                               Path := pathTemplate;
                               HandlerName :=
                                 extractHandlerName pathTemplate method;
                               Tags := extractTags pathTemplate |} ])%list
             methods routes,
           Continue)
      end
  end.

(** [extractRoutes]; the error that [Walk] returns is dropped, as in the
    source. *)
Definition extractRoutes (router : Router) : list RouteInfo :=
  fst (Walk extractRoutes_walkFn router []).

(** ** Spec Assembler *)

Definition withSchemas (spec : SwaggerSpec) (schemas : gmap string Schema)
  : SwaggerSpec :=
  {| OpenAPI := OpenAPI spec; Info := Info spec; Servers := Servers spec;
     Paths := Paths spec; Components_ := {| Schemas := schemas |} |}.

Definition withPaths (spec : SwaggerSpec) (paths : gmap string PathItem)
  : SwaggerSpec :=
  {| OpenAPI := OpenAPI spec; Info := Info spec; Servers := Servers spec;
     Paths := paths; Components_ := Components_ spec |}.

Definition ResponseSchema : Schema :=
  {| Type__ := "object"; Format := "";
     Properties :=
       {[ "status" := SchemaOfTypeExample "string" (VString "success");
          "message" :=
            SchemaOfTypeExample "string"
              (VString "Operation completed successfully");
          "data" :=
            {| Type__ := ""; Format := ""; Properties := ∅; Required := [];
               Items := None; Ref := "";
               AdditionalProperties := VBool true; Example := VNil |} ]};
     Required := ["status"; "message"];
     Items := None; Ref := ""; AdditionalProperties := VNil;
     Example := VNil |}.

Definition ErrorResponseSchema : Schema :=
  {| Type__ := "object"; Format := "";
     Properties :=
       {[ "status" := SchemaOfTypeExample "string" (VString "error");
          "message" :=
            SchemaOfTypeExample "string" (VString "Error description") ]};
     Required := ["status"; "message"];
     Items := None; Ref := ""; AdditionalProperties := VNil;
     Example := VNil |}.

(** [generateSchemas]: the schema of the [User] model, then the two
    envelope schemas. *)
Definition generateSchemas {tables : CaseTables} (spec : SwaggerSpec)
  : outcome SwaggerSpec :=
  let* userSchema := generateModelSchema models_User in
  let schemas := <["User" := userSchema]> (Schemas (Components_ spec)) in
  let schemas := <["Response" := ResponseSchema]> schemas in
  let schemas := <["ErrorResponse" := ErrorResponseSchema]> schemas in
  Ok (withSchemas spec schemas).

(** The [switch route.Method] of [generatePaths]. *)
Definition setOperation (method : string) (pathItem : PathItem)
    (operation : Operation) : PathItem :=
  if method =? "GET" then
    {| Get := Some operation; Post := Post pathItem; Put := Put pathItem;
       Delete := Delete pathItem |}
  else if method =? "POST" then
    {| Get := Get pathItem; Post := Some operation; Put := Put pathItem;
       Delete := Delete pathItem |}
  else if method =? "PUT" then
    {| Get := Get pathItem; Post := Post pathItem; Put := Some operation;
       Delete := Delete pathItem |}
  else if method =? "DELETE" then
    {| Get := Get pathItem; Post := Post pathItem; Put := Put pathItem;
       Delete := Some operation |}
  else pathItem.

(** One iteration of the loop of [generatePaths]. *)
Definition addRoute (paths : gmap string PathItem) (route : RouteInfo)
  : gmap string PathItem :=
  let pathItem :=
    match paths !! Path route with
    | Some pathItem => pathItem
    | None => PathItem0
    end in
  let operation := generateOperation route in
  <[Path route := setOperation (Method route) pathItem operation]> paths.

(** [generatePaths] *)
Definition generatePaths (spec : SwaggerSpec) (routes : list RouteInfo)
  : outcome SwaggerSpec :=
  Ok (withPaths spec (fold_left addRoute routes (Paths spec))).

(** [GenerateSwagger] *)
Definition GenerateSwagger {tables : CaseTables} (router : Router)
    (info : SwaggerInfo) : outcome SwaggerSpec :=
  let spec :=
    {| OpenAPI := "3.0.0";
       Info := info;
       Servers := [ {| srvURL := "http://" ++ Host info;
                       srvDescription := "Development server" |} ];
       Paths := ∅;
       Components_ := {| Schemas := ∅ |} |} in
  let routes := extractRoutes router in
  match generateSchemas spec with
  | Err err => Err ("error generating schemas: " ++ err)
  | Panic => Panic
  | Ok spec =>
      match generatePaths spec routes with
      | Err err => Err ("error generating paths: " ++ err)
      | Panic => Panic
      | Ok spec => Ok spec
      end
  end.


Section Registry.

Context {tables : CaseTables}.




End Registry.

(** ** Concrete registries and records used in the statements *)

Definition healthRoute : Route :=
  {| GetPathTemplate := Val "/api/health"; GetMethods := Val ["GET"];
     subroutes := [] |}.

Definition info0 : SwaggerInfo :=
  {| Version := "1.0.0"; Title := "WentFramework API";
     Description := "Auto-generated API documentation for WentFramework";
     Host := "localhost:3000"; BasePath := "/api" |}.

(** The [/api] prefix route of [SetupRoutes]: it has a path template and a
    sub-router but no method set. *)
Definition apiPrefixRoute (subs : list Route) : Route :=
  {| GetPathTemplate := Val "/api";
     GetMethods := Fail "mux: route doesn't have methods";
     subroutes := subs |}.

(** The document before [generateSchemas] and [generatePaths] fill it. *)
Definition emptySpec (info : SwaggerInfo) : SwaggerSpec :=
  {| OpenAPI := "3.0.0"; Info := info;
     Servers := [ {| srvURL := "http://" ++ Host info;
                     srvDescription := "Development server" |} ];
     Paths := ∅; Components_ := {| Schemas := ∅ |} |}.

(** The record that [extractRoutes] emits for [method] on [path]. *)
Definition recordOf (method path : string) : RouteInfo :=
  {| Method := method; Path := path;
     HandlerName := extractHandlerName path method;
     Tags := extractTags path |}.

(** The schema derived for [models.User]. *)
Definition UserSchema {tables : CaseTables} : Schema :=
  match generateModelSchema models_User with
  | Ok s => s
  | _ => Schema0
  end.

(** The components map after [generateSchemas]. *)
Definition schemas0 {tables : CaseTables} : gmap string Schema :=
  <["ErrorResponse" := ErrorResponseSchema]>
    (<["Response" := ResponseSchema]> (<["User" := UserSchema]> ∅)).

(** The kinds that [generateFieldSchema] maps to [integer]. *)
Definition is_signed_int (k : Kind) : bool :=
  match k with
  | Int | Int8 | Int16 | Int32 | Int64 => true
  | _ => false
  end.

Definition is_unsigned_int (k : Kind) : bool :=
  match k with
  | Uint | Uint8 | Uint16 | Uint32 | Uint64 => true
  | _ => false
  end.

(** The field names that [generateExample] answers by name. *)
Definition specialNames : list string :=
  ["id"; "name"; "email"; "created_at"; "updated_at"].

(** ** The [$ref] strings of a document

    A schema whose [Ref] is the empty string has no [$ref] member in the
    serialized document ([omitempty]). *)

Fixpoint schemaRefs (s : Schema) : list string :=
  ((if Ref s =? "" then [] else [Ref s]) ++
   map_fold (fun _ p acc => schemaRefs p ++ acc) [] (Properties s) ++
   match Items s with
   | Some items => schemaRefs items
   | None => []
   end)%list.

Definition contentRefs (content : gmap string MediaType) : list string :=
  map_fold (fun _ mt acc => schemaRefs (mtSchema mt) ++ acc)%list [] content.

Definition operationRefs (op : Operation) : list string :=
  (flat_map (fun p => schemaRefs (pSchema p)) (opParameters op) ++
   match opRequestBody op with
   | Some body => contentRefs (rbContent body)
   | None => []
   end ++
   map_fold (fun _ r acc => contentRefs (respContent r) ++ acc) []
     (opResponses op))%list.

Definition slotRefs (slot : option Operation) : list string :=
  match slot with
  | Some op => operationRefs op
  | None => []
  end.

Definition pathItemRefs (item : PathItem) : list string :=
  (slotRefs (Get item) ++ slotRefs (Post item) ++ slotRefs (Put item) ++
   slotRefs (Delete item))%list.

(** Every [$ref] of the document: those of the paths, then those of the
    component schemas. *)
Definition specRefs (spec : SwaggerSpec) : list string :=
  (map_fold (fun _ item acc => pathItemRefs item ++ acc) [] (Paths spec) ++
   map_fold (fun _ s acc => schemaRefs s ++ acc) []
     (Schemas (Components_ spec)))%list.

(** The schema a [$ref] points to: the entry of [components.schemas] named
    after the prefix [#/components/schemas/]. *)
Definition resolveRef (spec : SwaggerSpec) (ref : string) : option Schema :=
  if strings.HasPrefix ref "#/components/schemas/"
  then Schemas (Components_ spec)
         !! strings.TrimPrefix ref "#/components/schemas/"
  else None.

(** The two references the generator writes. *)
Definition envelopeRef (ref : string) : Prop :=
  ref = refResponse \/ ref = refErrorResponse.

(** ** Reading the paths map and the walk order *)

(** The verbs that [PathItem] has a slot for. *)
Definition verbs : list string := ["GET"; "POST"; "PUT"; "DELETE"].

(** The slot of a [PathItem] that belongs to a verb. *)
Definition getOperation (method : string) (item : PathItem)
  : option Operation :=
  if method =? "GET" then Get item
  else if method =? "POST" then Post item
  else if method =? "PUT" then Put item
  else if method =? "DELETE" then Delete item
  else None.

(** The operation documented for [method] on [path], if any. *)
Definition lookupOperation (paths : gmap string PathItem)
    (path method : string) : option Operation :=
  match paths !! path with
  | Some item => getOperation method item
  | None => None
  end.

(** The routes that [Walk] visits below and including [t], in order. *)
Fixpoint walkOrder (t : Route) : list Route :=
  t :: flat_map walkOrder (subroutes t).

(** The records emitted for one visited route: one per method when both
    getters answer, none otherwise. *)
Definition routeRecords (t : Route) : list RouteInfo :=
  match GetPathTemplate t, GetMethods t with
  | Val pathTemplate, Val methods =>
      map (fun method => recordOf method pathTemplate) methods
  | _, _ => []
  end.

(** A route one of whose getters answers with an error. *)
Definition malformed (t : Route) : Prop :=
  (exists e, GetPathTemplate t = Fail e) \/ (exists e, GetMethods t = Fail e).

(** ** Serializer ([encoding/json])

    [json.MarshalIndent] is modelled in two steps: the JSON value that the
    encoder produces for a document (members of an object in the order in
    which they are written), then the text of that value.  The first step
    follows the [json] tags of the structs of package [swagger]: a field
    tagged [omitempty] is left out when it is empty (empty string, [false],
    [nil], empty slice or map).  The members of a Go map are written in the
    sorted order of their keys, whatever the order in which the runtime
    yields them. *)

Inductive JSON : Type :=
| JNull
| JBool (b : bool)
| JNumber (z : Z)
| JString (s : string)
| JArray (elements : list JSON)
| JObject (members : list (string * JSON)).

Definition valueJSON (v : Value) : JSON :=
  match v with
  | VNil => JNull
  | VInt z => JNumber z
  | VString s => JString s
  | VBool b => JBool b
  end.

(** Members for fields tagged [omitempty]. *)
Definition omitemptyString (name s : string) : list (string * JSON) :=
  if s =? "" then [] else [(name, JString s)].

Definition omitemptyBool (name : string) (b : bool) : list (string * JSON) :=
  if b then [(name, JBool true)] else [].

Definition omitemptyValue (name : string) (v : Value) : list (string * JSON) :=
  match v with
  | VNil => []
  | _ => [(name, valueJSON v)]
  end.

Definition omitemptyStrings (name : string) (l : list string)
  : list (string * JSON) :=
  match l with
  | [] => []
  | _ => [(name, JArray (map JString l))]
  end.

Section Serializer.

(** The order in which the runtime yields the keys of a map: any order. *)
Variable MapKeys : gset string -> list string.

(** The text of a JSON value, as [MarshalIndent] lays it out with prefix
    [""] and indent ["  "]. *)
Variable encodeIndent : JSON -> string.

(** [os.WriteFile name data perm] on a file system of type [FS]. *)
Variable FS : Type.
Variable WriteFile : string -> string -> N -> FS -> FS * option error.

(** The keys of a map in the order in which the encoder writes them. *)
Definition sortedKeys (keys : gset string) : list string :=
  merge_sort String.le (MapKeys keys).

(** A Go map: one member per key, in sorted key order. *)
Definition mapJSON {V : Type} (enc : V -> JSON) (m : gmap string V) : JSON :=
  let encoded := enc <$> m in
  JObject (omap (fun k => (fun j => (k, j)) <$> encoded !! k)
                (sortedKeys (dom m))).

Definition omitemptyMap {V : Type} (name : string) (enc : V -> JSON)
    (m : gmap string V) : list (string * JSON) :=
  if (size m =? 0)%nat then [] else [(name, mapJSON enc m)].

Fixpoint schemaJSON (s : Schema) : JSON :=
  JObject
    (omitemptyString "type" (Type__ s) ++
     omitemptyString "format" (Format s) ++
     omitemptyMap "properties" schemaJSON (Properties s) ++
     omitemptyStrings "required" (Required s) ++
     match Items s with
     | Some items => [("items", schemaJSON items)]
     | None => []
     end ++
     omitemptyString "$ref" (Ref s) ++
     omitemptyValue "additionalProperties" (AdditionalProperties s) ++
     omitemptyValue "example" (Example s))%list.

Definition mediaTypeJSON (mt : MediaType) : JSON :=
  JObject [("schema", schemaJSON (mtSchema mt))].

Definition responseJSON (r : Response) : JSON :=
  JObject
    ([("description", JString (respDescription r))] ++
     omitemptyMap "content" mediaTypeJSON (respContent r))%list.

Definition requestBodyJSON (body : RequestBody) : JSON :=
  JObject
    (omitemptyString "description" (rbDescription body) ++
     omitemptyBool "required" (rbRequired body) ++
     [("content", mapJSON mediaTypeJSON (rbContent body))])%list.

Definition parameterJSON (p : Parameter_) : JSON :=
  JObject
    ([("name", JString (pName p)); ("in", JString (pIn p))] ++
     omitemptyString "description" (pDescription p) ++
     omitemptyBool "required" (pRequired p) ++
     [("schema", schemaJSON (pSchema p))])%list.

Definition operationJSON (op : Operation) : JSON :=
  JObject
    (omitemptyStrings "tags" (opTags op) ++
     [("summary", JString (opSummary op))] ++
     omitemptyString "description" (opDescription op) ++
     match opParameters op with
     | [] => []
     | ps => [("parameters", JArray (map parameterJSON ps))]
     end ++
     match opRequestBody op with
     | Some body => [("requestBody", requestBodyJSON body)]
     | None => []
     end ++
     [("responses", mapJSON responseJSON (opResponses op))])%list.

Definition omitemptyOperation (name : string) (slot : option Operation)
  : list (string * JSON) :=
  match slot with
  | Some op => [(name, operationJSON op)]
  | None => []
  end.

Definition pathItemJSON (item : PathItem) : JSON :=
  JObject
    (omitemptyOperation "get" (Get item) ++
     omitemptyOperation "post" (Post item) ++
     omitemptyOperation "put" (Put item) ++
     omitemptyOperation "delete" (Delete item))%list.

Definition infoJSON (info : SwaggerInfo) : JSON :=
  JObject [("version", JString (Version info));
           ("title", JString (Title info));
           ("description", JString (Description info));
           ("host", JString (Host info));
           ("basePath", JString (BasePath info))].

Definition serverJSON (srv : Server) : JSON :=
  JObject [("url", JString (srvURL srv));
           ("description", JString (srvDescription srv))].

(** The JSON value of a document.  (The maps and the server list of a
    document built by [GenerateSwagger] are never [nil].) *)
Definition specJSON (spec : SwaggerSpec) : JSON :=
  JObject [("openapi", JString (OpenAPI spec));
           ("info", infoJSON (Info spec));
           ("servers", JArray (map serverJSON (Servers spec)));
           ("paths", mapJSON pathItemJSON (Paths spec));
           ("components",
            JObject [("schemas",
                      mapJSON schemaJSON (Schemas (Components_ spec)))])].

(** [json.MarshalIndent(spec, "", "  ")] *)
Definition MarshalIndent (spec : SwaggerSpec) : string :=
  encodeIndent (specJSON spec).

(** [SaveSwaggerSpec]: the file is written with mode [0644]. *)
Definition SaveSwaggerSpec (spec : SwaggerSpec) (filename : string) (fs : FS)
  : FS * option error :=
  let data := MarshalIndent spec in
  WriteFile filename data 420%N fs.

End Serializer.

(** Key orders that yield every key of the map once. *)
Definition validOrder (MapKeys : gset string -> list string) : Prop :=
  forall keys, MapKeys keys ≡ₚ elements keys.

(** The size of a schema: the number of schemas in it. *)
Fixpoint schemaSize (s : Schema) : nat :=
  S (map_fold (fun _ p acc => schemaSize p + acc) 0 (Properties s) +
     match Items s with
     | Some items => schemaSize items
     | None => 0
     end).

(** ** Concrete registries, encoders and file systems for the examples *)

(** A route registered with [HandleFunc(path, _).Methods(method)]. *)
Definition methodRoute (method path : string) : Route :=
  {| GetPathTemplate := Val path; GetMethods := Val [method];
     subroutes := [] |}.

(** The router built by [SetupRoutes]: the [/api] sub-router with the user
    routes and the health route, then the two Swagger routes, the second of
    which ([PathPrefix("/swagger/")]) has no method set. *)
Definition SetupRoutes : Router :=
  [ apiPrefixRoute
      [ methodRoute "GET" "/api/users";
        methodRoute "GET" "/api/users/{id}";
        methodRoute "POST" "/api/users";
        methodRoute "PUT" "/api/users/{id}";
        methodRoute "DELETE" "/api/users/{id}";
        methodRoute "GET" "/api/health" ];
    methodRoute "GET" "/swagger.json";
    {| GetPathTemplate := Val "/swagger/";
       GetMethods := Fail "mux: route doesn't have methods";
       subroutes := [] |} ].

(** A compact rendering of a JSON value, without escaping; it stands in
    for the encoder's text in the examples. *)
Definition quoted (s : string) : string :=
  String (ascii_of_nat 34) (s ++ String (ascii_of_nat 34) "").

Definition joinWith (sep : string) (l : list string) : string :=
  match l with
  | [] => ""
  | x :: l' => fold_left (fun acc y => acc ++ sep ++ y) l' x
  end.

Fixpoint compactJSON (j : JSON) : string :=
  match j with
  | JNull => "null"
  | JBool true => "true"
  | JBool false => "false"
  | JNumber z => pretty z
  | JString s => quoted s
  | JArray elements => "[" ++ joinWith "," (map compactJSON elements) ++ "]"
  | JObject members =>
      "{" ++ joinWith ","
               (map (fun kv => quoted (fst kv) ++ ":" ++ compactJSON (snd kv))
                    members) ++ "}"
  end.

(** A file system as a map from names to contents, on which every write
    succeeds. *)
Definition writeAlways (name data : string) (perm : N)
    (fs : gmap string string) : gmap string string * option error :=
  (<[name := data]> fs, None).

(** ** Reading the field loop of [generateModelSchema] *)

(** A field takes part in the schema when its [json] tag is neither empty
    nor ["-"]. *)
Definition included (field : StructField) : bool :=
  negb ((fTagJson field =? "") || (fTagJson field =? "-")).

(** The name under which a field appears in [properties]. *)
Definition wireName {tables : CaseTables} (field : StructField) : string :=
  let n := strings.SplitFirst (fTagJson field) "," in
  if n =? "" then strings.ToLower (fName field) else n.

(** A field is listed in [required] when it is included and its tag does
    not contain [omitempty]. *)
Definition requiredField (field : StructField) : bool :=
  included field && negb (strings.Contains (fTagJson field) "omitempty").

Section FieldLoop.

Context {tables : CaseTables}.

(** The field loop of [generateModelSchema], from a given schema on. *)
Fixpoint fieldLoop (fs : list StructField) (schema : Schema)
  : outcome Schema :=
  match fs with
  | [] => Ok schema
  | field :: fs' =>
      if (fTagJson field =? "") || (fTagJson field =? "-")
      then fieldLoop fs' schema
      else
        let* fieldSchema := generateFieldSchema (fType field) in
        fieldLoop fs' (addField schema field fieldSchema)
  end.

End FieldLoop.

(** Types as [reflect] builds them: a type has fields exactly when its kind
    is [Struct], and so have the types of its fields and its element
    type. *)
Fixpoint structsHaveFields (t : Type_) : bool :=
  match t with
  | mkType k _ e fs =>
      match fs with
      | Some l =>
          bool_decide (k = Struct) &&
          forallb (fun f => structsHaveFields (fType f)) l
      | None => negb (bool_decide (k = Struct))
      end &&
      match e with
      | Some t' => structsHaveFields t'
      | None => true
      end
  end.

(** The [type] values of JSON Schema that the deriver writes. *)
Definition jsonTypes : list string :=
  ["string"; "integer"; "number"; "boolean"; "array"; "object"].

(** ** More of Go's [strings] *)

(** [strings.HasSuffix] and [strings.TrimSuffix] *)
Definition HasSuffix (s suffix : string) : bool :=
  strings.HasPrefix (String.rev s) (String.rev suffix).

Definition TrimSuffix (s suffix : string) : string :=
  if HasSuffix s suffix
  then String.substring 0 (String.length s - String.length suffix) s
  else s.

(** [strings.Trim(s, cutset)] for a cutset of one byte. *)
Fixpoint TrimLeft (s : string) (c : ascii) : string :=
  match s with
  | EmptyString => EmptyString
  | String a s' => if Ascii.eqb a c then TrimLeft s' c else s
  end.

Definition TrimRight (s : string) (c : ascii) : string :=
  String.rev (TrimLeft (String.rev s) c).

Definition Trim (s : string) (c : ascii) : string :=
  TrimRight (TrimLeft s c) c.

(** [strings.LastIndex(s, sep)] for a separator of one byte; [None] is
    Go's [-1]. *)
Fixpoint LastIndex (s : string) (c : ascii) : option nat :=
  match s with
  | EmptyString => None
  | String a s' =>
      match LastIndex s' c with
      | Some i => Some (S i)
      | None => if Ascii.eqb a c then Some 0 else None
      end
  end.

(** ** Package [router]: the route listing printed at start-up *)

Module router.

(** [router.RouteInfo] *)
Record RouteInfo : Type := mkRouteInfo { Method : string; Path : string }.

(** The callback of [router.extractRoutes]. *)
Definition extractRoutes_walkFn (route : Route) (routes : list RouteInfo)
  : list RouteInfo * WalkResult :=
  match GetPathTemplate route with
  | Fail _ => (routes, Continue)
  | Val pathTemplate =>
      match GetMethods route with
      | Fail _ => (routes, Continue)
      | Val methods =>
          (fold_left
             (fun (routes : list RouteInfo) (method : string) =>
                routes ++ [ {| Method := method; Path := pathTemplate |} ])%list
             methods routes,
           Continue)
      end
  end.

(** [router.extractRoutes]: the routes, and what is printed (a line when
    the walk returns an error). *)
Definition extractRoutes (router : Router) : list RouteInfo * list string :=
  let '(routes, err) := Walk extractRoutes_walkFn router [] in
  match err with
  | Some e => (routes, ["Error walking routes: " ++ e])
  | None => (routes, [])
  end.

(** [getRouteDescription] *)
Definition getRouteDescription (method path : string) : string :=
  let cleanPath := strings.TrimPrefix path "/api" in
  if path =? "/api/health" then "Health check"
  else if path =? "/swagger.json" then "Swagger JSON specification"
  else if strings.HasPrefix path "/swagger/" then "Swagger UI documentation"
  else if (method =? "GET") && (cleanPath =? "/users") then "Get all users"
  else if (method =? "GET") && strings.Contains cleanPath "/users/{id}"
  then "Get user by ID"
  else if (method =? "POST") && (cleanPath =? "/users") then "Create new user"
  else if (method =? "PUT") && strings.Contains cleanPath "/users/{id}"
  then "Update user"
  else if (method =? "DELETE") && strings.Contains cleanPath "/users/{id}"
  then "Delete user"
  else
    let resource := strings.SplitFirst (Trim cleanPath "/") "/" in
    let generic := Sprintf_s_s method cleanPath in
    if strings.Contains cleanPath "{id}" then
      if method =? "GET" then "Get " ++ TrimSuffix resource "s" ++ " by ID"
      else if (method =? "PUT") || (method =? "PATCH")
      then "Update " ++ TrimSuffix resource "s"
      else if method =? "DELETE" then "Delete " ++ TrimSuffix resource "s"
      else generic
    else
      if method =? "GET" then "Get all " ++ resource
      else if method =? "POST" then "Create new " ++ TrimSuffix resource "s"
      else generic.

(** The order of [sort.Slice] in [PrintRoutes]: by path, then by method. *)
Definition routeLess (a b : RouteInfo) : bool :=
  if Path a =? Path b then String.ltb (Method a) (Method b)
  else String.ltb (Path a) (Path b).

End router.

(** ** The environment and the callers of [GenerateSwagger] *)

(** [os.Getenv] on an environment given as a map: the empty string when
    the variable is not set. *)
Definition Getenv (env : gmap string string) (key : string) : string :=
  default "" (env !! key).

(** [getEnv] *)
Definition getEnv (env : gmap string string) (key fallback : string)
  : string :=
  let value := Getenv env key in
  if negb (value =? "") then value else fallback.

(** [generateSwaggerSpec] of package [router]: the document served at
    [/swagger.json]. *)
Definition generateSwaggerSpec {tables : CaseTables}
    (env : gmap string string) (router : Router) : outcome SwaggerSpec :=
  let host := getEnv env "SERVER_HOST" "localhost" in
  let port := getEnv env "SERVER_PORT" "3000" in
  let host := if host =? "0.0.0.0" then "localhost" else host in
  let info :=
    {| Version := getEnv env "APP_VERSION" "1.0.0";
       Title := getEnv env "APP_NAME" "WentFramework API";
       Description := "Auto-generated API documentation for WentFramework";
       Host := host ++ ":" ++ port;
       BasePath := "/api" |} in
  GenerateSwagger router info.

(** [getDir] *)
Definition getDir (path : string) : string :=
  match LastIndex path "/" with
  | None => "."
  | Some idx => String.substring 0 idx path
  end.

(** ** The sorted route listing of [PrintRoutes] *)

(** [a] does not come after [b] in the order of [routeLess]. *)
Definition routeLe (a b : router.RouteInfo) : Prop :=
  router.routeLess b a = false.

#[global] Instance routeLe_dec : RelDecision routeLe.
Proof. intros a b. unfold routeLe. apply _. Defined.

(** [sort.Slice(routes, less)]: the routes in the order of [routeLess].
    Two routes that compare equal are the same record, so every sorting
    algorithm gives this list. *)
Definition sortRoutes (routes : list router.RouteInfo)
  : list router.RouteInfo :=
  merge_sort routeLe routes.

(** [%-6s]: the text, padded with spaces on the right to six bytes. *)
Definition padRight6 (s : string) : string :=
  s ++ String.concat "" (replicate (6 - String.length s) " ").

(** The lines that the loop of [PrintRoutes] prints, one per route. *)
Definition printedRoutes (r : Router) : list string :=
  map (fun route =>
         "   " ++ padRight6 (router.Method route) ++ " " ++
         router.Path route ++ " - " ++
         router.getRouteDescription (router.Method route) (router.Path route)
         ++ String (ascii_of_nat 10) "")
      (sortRoutes (fst (router.extractRoutes r))).

(** ** Reading the serialized document *)

(** The strings held by the members named [$ref], at any depth. *)
Fixpoint jsonRefs (j : JSON) : list string :=
  match j with
  | JObject members =>
      flat_map (fun kv =>
                  (match snd kv with
                   | JString s => if fst kv =? "$ref" then [s] else []
                   | _ => []
                   end ++ jsonRefs (snd kv))%list) members
  | JArray elements => flat_map jsonRefs elements
  | _ => []
  end.

(** The member of an object with a given name (the first one). *)
Definition jsonMember (name : string) (j : JSON) : option JSON :=
  match j with
  | JObject members =>
      snd <$> List.find (fun kv => fst kv =? name) members
  | _ => None
  end.

(** What a [$ref] of the form [#/components/schemas/<name>] points to in a
    serialized document. *)
Definition jsonResolve (doc : JSON) (ref : string) : option JSON :=
  if strings.HasPrefix ref "#/components/schemas/" then
    match jsonMember "components" doc with
    | Some components =>
        match jsonMember "schemas" components with
        | Some schemas =>
            jsonMember (strings.TrimPrefix ref "#/components/schemas/") schemas
        | None => None
        end
    | None => None
    end
  else None.

Definition isObject (j : JSON) : Prop :=
  match j with
  | JObject _ => True
  | _ => False
  end.

(** ** Scaffolding: [make:model] (package [commands])

    The files are a map from files to contents and the terminal is the list
    of the texts printed so far.  A file is identified by one path; which
    file a path names once symbolic links are followed is a parameter
    ([target] below), and so are the template engine and the failures of
    [os.Create].  Directories are not represented: [os.MkdirAll], whose
    result the code ignores, has no counterpart. *)

Record World : Type := mkWorld {
  files : gmap string string;
  stdout : list string
}.

(** How a call ends: it returns, or it panics with an error. *)
Inductive Exit : Type :=
| Returned
| Panicked (err : error).

Definition print (text : string) (w : World) : World :=
  {| files := files w; stdout := (stdout w ++ [text])%list |}.

Definition writeFile (path content : string) (w : World) : World :=
  {| files := <[path := content]> (files w); stdout := stdout w |}.

Section Scaffolding.

Context {tables : CaseTables}.

(** [text/template]: parsing the text of a template file, and executing a
    template on the data [{ModelName, TableName}], which gives the text
    written to the output and possibly an error. *)
Variable Template : Type.
Variable Parse : string -> result Template.
Variable Execute : Template -> string -> string -> string * option error.

(** The error of opening a file that does not exist, and the result of
    [os.Create] on a path ([None] when the file could be created). *)
Variable openError : string -> error.
Variable Create : string -> option error.

(** The file that a path names: [os.Open], [os.Stat] and [os.Create] all
    follow symbolic links, so a link names the file it points to, whether
    that file exists or not.  Without links this is the identity. *)
Variable target : string -> string.

(** [template.ParseFiles(path)] *)
Definition ParseFiles (path : string) (w : World) : result Template :=
  match files w !! target path with
  | None => Fail (openError path)
  | Some text => Parse text
  end.

(** [createFileFromTemplate] *)
Definition createFileFromTemplate (templatePath outputPath modelName : string)
    (w : World) : World * Exit :=
  match ParseFiles templatePath w with
  | Fail err => (w, Panicked err)
  | Val tpl =>
      match files w !! target outputPath with
      | Some _ =>
          (print ("Skipped (already exists): " ++ outputPath ++
                  String (ascii_of_nat 10) "") w,
           Returned)
      | None =>
          match Create outputPath with
          | Some err => (w, Panicked err)
          | None =>
              let '(text, err) :=
                Execute tpl modelName (strings.ToLower modelName ++ "s") in
              let w := writeFile (target outputPath) text w in
              match err with
              | Some err => (w, Panicked err)
              | None => (w, Returned)
              end
          end
      end
  end.

(** [MakeModel] *)
Definition MakeModel (modelName : string) (w : World) : World * Exit :=
  match createFileFromTemplate "internal/templates/model.tpl"
          ("app/models/" ++ modelName ++ ".go") modelName w with
  | (w, Panicked err) => (w, Panicked err)
  | (w, Returned) =>
      match createFileFromTemplate "internal/templates/controller.tpl"
              ("app/controllers/" ++ modelName ++ "Controller.go")
              modelName w with
      | (w, Panicked err) => (w, Panicked err)
      | (w, Returned) =>
          (print ("Files created successfully!" ++ String (ascii_of_nat 10) "")
             w, Returned)
      end
  end.

End Scaffolding.

(** The two lines that scaffolding prints. *)
Definition skipped (outputPath : string) : string :=
  "Skipped (already exists): " ++ outputPath ++ String (ascii_of_nat 10) "".

Definition filesCreated : string :=
  "Files created successfully!" ++ String (ascii_of_nat 10) "".

(** A template engine for the examples: a template is its text, and
    executing it writes the model name, the text and the table name. *)
Definition sampleExecute (tpl modelName tableName : string)
  : string * option error :=
  (modelName ++ tpl ++ tableName, None).

Definition sampleWorld : World :=
  {| files := {[ "internal/templates/model.tpl" := " model ";
                 "internal/templates/controller.tpl" := " controller " ]};
     stdout := [] |}.

(** A project in which [app/models/Post.go] is a symbolic link to
    [legacy/post.go], a file that exists. *)
Definition linkedTarget (path : string) : string :=
  if path =? "app/models/Post.go" then "legacy/post.go" else path.

Definition linkedWorld : World :=
  {| files := {[ "internal/templates/model.tpl" := " model ";
                 "legacy/post.go" := "package models" ]};
     stdout := [] |}.

(** Case tables for the examples.  The strings of the examples are ASCII,
    so that [strings.ToLower] never consults the tables there. *)
Definition noTables : CaseTables := {| Map_unicode_ToLower := fun s => s |}.

(** * Properties *)

Section Properties.

(** The properties hold for every choice of the case tables. *)
Context {tables : CaseTables}.

(** ** Strings *)

Lemma eqb_true (a b : string) : (a =? b) = true <-> a = b.
Proof. apply String.eqb_eq. Qed.

Lemma eqb_false (a b : string) : (a =? b) = false <-> a <> b.
Proof. apply String.eqb_neq. Qed.

Lemma not_special_eqb (lower : string) :
  lower ∉ specialNames ->
  (lower =? "id") = false /\ (lower =? "name") = false /\
  (lower =? "email") = false /\ (lower =? "created_at") = false /\
  (lower =? "updated_at") = false.
Proof.
  intros H. repeat split; apply eqb_false; intros ->; apply H;
    unfold specialNames;
    repeat first [apply list_elem_of_here | apply list_elem_of_further].
Qed.

(** ** Schema Deriver *)

Lemma generateModelSchema_User : generateModelSchema models_User = Ok UserSchema.
Proof. vm_compute. reflexivity. Qed.

(** [uintptr] is not among the kinds listed by [generateFieldSchema]: it
    takes the [default] branch. *)
Example generateFieldSchema_uintptr :
  generateFieldSchema (scalar Uintptr "uintptr") = Ok (SchemaOfType "string").
Proof. reflexivity. Qed.

(** C2, amended: for every type of one of the ten kinds [int], [int8] ...
    [int64], [uint], [uint8] ... [uint64], the derived schema has type
    [integer]; the format [int64] is attached exactly for the five unsigned
    kinds, and the signed kinds get no format. *)
Theorem C2_integer_kinds (t : Type_) :
  is_signed_int (tKind t) || is_unsigned_int (tKind t) = true ->
  exists s, generateFieldSchema t = Ok s /\
            Type__ s = "integer" /\
            (Format s = "int64" <-> is_unsigned_int (tKind t) = true) /\
            (Format s = "" <-> is_signed_int (tKind t) = true).
Proof.
  intros H. unfold generateFieldSchema, generateFieldSchema_in.
  destruct (tKind t); try discriminate H; eexists; (split; [reflexivity|]);
    cbn; repeat split; intros; congruence.
Qed.

(** ** Example Synthesizer *)

(** C3, amended: for a field name that is none of the special names once
    lower-cased, the example is chosen by kind: ["example string"] for
    [string]; [1] for [int], [int64], [uint] and [uint64]; [true] for
    [bool]; and none for every other kind, the integer kinds of width 8, 16
    and 32 included. *)
Theorem C3_fallback_by_kind (fieldName : string) (t : Type_) :
  (strings.ToLower fieldName ∉ specialNames) ->
  (tKind t = String_ -> generateExample fieldName t = VString "example string") /\
  (tKind t ∈ [Int; Int64; Uint; Uint64] -> generateExample fieldName t = VInt 1) /\
  (tKind t = Bool -> generateExample fieldName t = VBool true) /\
  (tKind t ∉ [String_; Int; Int64; Uint; Uint64; Bool] ->
   generateExample fieldName t = VNil).
Proof.
  intros H. apply not_special_eqb in H as (H1 & H2 & H3 & H4 & H5).
  unfold generateExample. rewrite H1, H2, H3, H4, H5. cbn.
  repeat split.
  - intros ->. reflexivity.
  - rewrite !elem_of_cons, elem_of_nil.
    intros [-> | [-> | [-> | [-> | []]]]]; reflexivity.
  - intros ->. reflexivity.
  - intros Hk. destruct (tKind t); try reflexivity; exfalso; apply Hk;
      repeat first [apply list_elem_of_here | apply list_elem_of_further].
Qed.

(** ** Operation Builder *)

(** C4: the operation built for GET [/api/users/{id}] has exactly one
    parameter, named [id], in the path, required, of schema type [integer],
    and its responses map has exactly the keys 200, 404, 400 and 500. *)
Theorem C4_get_user_by_id (handlerName : string) (tags : list string) :
  let op := generateOperation
              {| Method := "GET"; Path := "/api/users/{id}";
                 HandlerName := handlerName; Tags := tags |} in
  (exists p, opParameters op = [p] /\ pName p = "id" /\ pIn p = "path" /\
             pRequired p = true /\ Type__ (pSchema p) = "integer") /\
  dom (opResponses op) = {[ "200"; "404"; "400"; "500" ]}.
Proof.
  split.
  - eexists. split; [reflexivity|]. repeat split.
  - vm_compute. reflexivity.
Qed.

(** C5: the operation built for POST [/api/users] has exactly the response
    keys 201, 400 and 500; its request body is present and required, and its
    only content is a JSON object schema with the two string properties
    [name] and [email], both required. *)
Theorem C5_post_users (handlerName : string) (tags : list string) :
  let op := generateOperation
              {| Method := "POST"; Path := "/api/users";
                 HandlerName := handlerName; Tags := tags |} in
  dom (opResponses op) = {[ "201"; "400"; "500" ]} /\
  exists body schema name email,
    opRequestBody op = Some body /\
    rbRequired body = true /\
    rbContent body = {[ "application/json" := mkMediaType schema ]} /\
    Type__ schema = "object" /\
    dom (Properties schema) = {[ "name"; "email" ]} /\
    Properties schema !! "name" = Some name /\ Type__ name = "string" /\
    Properties schema !! "email" = Some email /\ Type__ email = "string" /\
    Required schema = ["name"; "email"].
Proof.
  split.
  - vm_compute. reflexivity.
  - cbn -[insert singletonM]. do 4 eexists.
    split; [reflexivity|]. split; [reflexivity|]. split; [reflexivity|].
    split; [reflexivity|]. split; [vm_compute; reflexivity|].
    split; [vm_compute; reflexivity|]. split; [reflexivity|].
    split; [vm_compute; reflexivity|]. split; reflexivity.
Qed.

(** ** Spec Assembler *)

(** [GenerateSwagger] never fails: it returns the document whose paths are
    built from the extracted routes and whose components are [schemas0]. *)
Lemma GenerateSwagger_ok (router : Router) (info : SwaggerInfo) :
  GenerateSwagger router info =
  Ok {| OpenAPI := "3.0.0";
        Info := info;
        Servers := [ {| srvURL := "http://" ++ Host info;
                        srvDescription := "Development server" |} ];
        Paths := fold_left addRoute (extractRoutes router) ∅;
        Components_ := {| Schemas := schemas0 |} |}.
Proof.
  unfold GenerateSwagger, generateSchemas.
  rewrite generateModelSchema_User. reflexivity.
Qed.

Lemma dom_schemas0 : dom schemas0 = {[ "User"; "Response"; "ErrorResponse" ]}.
Proof. vm_compute. reflexivity. Qed.

(** The source's own run: over a registry from which only the health-check
    GET route is extracted, the components map has the three keys [User],
    [Response] and [ErrorResponse], and the paths map has the one entry
    [/api/health], with the GET operation and its one response. *)
Lemma health_only_document (router : Router) (info : SwaggerInfo) :
  extractRoutes router = [recordOf "GET" "/api/health"] ->
  exists spec item op,
    GenerateSwagger router info = Ok spec /\
    dom (Schemas (Components_ spec)) = {[ "User"; "Response"; "ErrorResponse" ]} /\
    Paths spec = {[ "/api/health" := item ]} /\
    item = {| Get := Some op; Post := None; Put := None; Delete := None |} /\
    dom (opResponses op) = {[ "200" ]}.
Proof.
  intros H. do 3 eexists. split; [apply GenerateSwagger_ok|].
  cbn [Components_ Schemas Paths]. rewrite H.
  split; [apply dom_schemas0|].
  split; [vm_compute; reflexivity|].
  split; [reflexivity|].
  vm_compute. reflexivity.
Qed.





(** ** References *)

Section map_fold_app.
Context {A B : Type} (f : A -> list B) (P : B -> Prop).

Lemma Forall_map_fold_app (m : gmap string A) :
  map_Forall (fun _ v => Forall P (f v)) m ->
  Forall P (map_fold (fun _ v acc => f v ++ acc)%list [] m).
Proof.
  revert m.
  apply (map_fold_weak_ind
           (fun r m => map_Forall (fun _ v => Forall P (f v)) m -> Forall P r)).
  - intros _. constructor.
  - intros i x m r Hi IH Hall.
    apply map_Forall_insert in Hall as [Hx Hm]; [|exact Hi].
    apply Forall_app. split; [exact Hx | apply IH, Hm].
Qed.

End map_fold_app.

Lemma contentRefs_json (schema : Schema) :
  contentRefs {[ "application/json" := mkMediaType schema ]} =
  (schemaRefs schema ++ [])%list.
Proof. unfold contentRefs. rewrite map_fold_singleton. reflexivity. Qed.

Lemma envelope_jsonResponse (description ref : string) :
  envelopeRef ref ->
  Forall envelopeRef
    (contentRefs (respContent (jsonResponse description (SchemaOfRef ref)))).
Proof.
  intros H. cbn [jsonResponse respContent]. rewrite contentRefs_json.
  destruct H as [-> | ->]; vm_compute; (constructor; [|constructor]);
    [left | right]; reflexivity.
Qed.

Ltac envelope_insert :=
  repeat first
    [ apply map_Forall_empty
    | apply map_Forall_insert_2;
      [ apply envelope_jsonResponse; (left + right); reflexivity | ] ].

Lemma envelope_generateResponses (method path : string) :
  map_Forall (fun _ r => Forall envelopeRef (contentRefs (respContent r)))
    (generateResponses method path).
Proof.
  unfold generateResponses.
  destruct (path =? "/api/health").
  - apply map_Forall_insert_2; [|apply map_Forall_empty].
    cbn [jsonResponse respContent]. rewrite contentRefs_json.
    vm_compute. constructor.
  - destruct (method =? "GET");
      [destruct (strings.Contains path "{id}"); envelope_insert|].
    destruct (method =? "POST"); [envelope_insert|].
    destruct (method =? "PUT"); [envelope_insert|].
    destruct (method =? "DELETE"); envelope_insert.
Qed.

Lemma envelope_generateOperation (route : RouteInfo) :
  Forall envelopeRef (operationRefs (generateOperation route)).
Proof.
  unfold operationRefs, generateOperation.
  cbn [opParameters opRequestBody opResponses].
  apply Forall_app; split; [|apply Forall_app; split].
  - destruct (strings.Contains (Path route) "{id}"); constructor.
  - destruct ((Method route =? "POST") || (Method route =? "PUT"));
      [|constructor].
    unfold generateRequestBody.
    destruct (strings.Contains (Path route) "/users"); [|constructor].
    cbn [rbContent]. rewrite contentRefs_json. vm_compute. constructor.
  - apply Forall_map_fold_app, envelope_generateResponses.
Qed.

Lemma envelope_setOperation (method : string) (item : PathItem)
    (op : Operation) :
  Forall envelopeRef (pathItemRefs item) ->
  Forall envelopeRef (operationRefs op) ->
  Forall envelopeRef (pathItemRefs (setOperation method item op)).
Proof.
  unfold pathItemRefs. rewrite !Forall_app. intros (Hg & Hp & Hu & Hd) Hop.
  unfold setOperation.
  repeat match goal with
         | |- context [if ?b then _ else _] => destruct b
         end;
    cbn [Get Post Put Delete slotRefs]; rewrite ?Forall_app; repeat split;
    assumption.
Qed.

Lemma envelope_addRoute (paths : gmap string PathItem) (route : RouteInfo) :
  map_Forall (fun _ item => Forall envelopeRef (pathItemRefs item)) paths ->
  map_Forall (fun _ item => Forall envelopeRef (pathItemRefs item))
    (addRoute paths route).
Proof.
  intros Hall. unfold addRoute. apply map_Forall_insert_2; [|exact Hall].
  apply envelope_setOperation; [|apply envelope_generateOperation].
  destruct (paths !! Path route) as [item|] eqn:E.
  - exact (Hall _ _ E).
  - vm_compute. constructor.
Qed.

(** Whatever the route list, the paths map refers to the two envelope
    schemas only. *)
Lemma envelope_generatePaths (routes : list RouteInfo)
    (paths : gmap string PathItem) :
  map_Forall (fun _ item => Forall envelopeRef (pathItemRefs item)) paths ->
  map_Forall (fun _ item => Forall envelopeRef (pathItemRefs item))
    (fold_left addRoute routes paths).
Proof.
  revert paths. induction routes as [|route routes IH]; intros paths H.
  - exact H.
  - cbn [fold_left]. apply IH, envelope_addRoute, H.
Qed.

Lemma schemas0_no_refs :
  map_fold (fun _ s acc => schemaRefs s ++ acc)%list [] schemas0 = [].
Proof. vm_compute. reflexivity. Qed.

(** C6: in every document that [GenerateSwagger] returns, whatever the
    registry, each [$ref] is one of [#/components/schemas/Response] and
    [#/components/schemas/ErrorResponse] and resolves to an entry of
    [components.schemas]; both envelope schemas are in that map. *)
Theorem C6_refs_resolve (router : Router) (info : SwaggerInfo) :
  exists spec,
    GenerateSwagger router info = Ok spec /\
    Schemas (Components_ spec) !! "Response" = Some ResponseSchema /\
    Schemas (Components_ spec) !! "ErrorResponse" = Some ErrorResponseSchema /\
    forall ref, ref ∈ specRefs spec ->
                envelopeRef ref /\ is_Some (resolveRef spec ref).
Proof.
  eexists. split; [apply GenerateSwagger_ok|].
  cbn [Components_ Schemas].
  split; [vm_compute; reflexivity|]. split; [vm_compute; reflexivity|].
  intros ref Href. unfold specRefs in Href.
  cbn [Paths Components_ Schemas] in Href.
  rewrite schemas0_no_refs, app_nil_r in Href.
  assert (Henv : envelopeRef ref).
  { revert ref Href. apply Forall_forall.
    apply Forall_map_fold_app, envelope_generatePaths, map_Forall_empty. }
  split; [exact Henv|].
  unfold resolveRef. cbn [Components_ Schemas].
  destruct Henv as [-> | ->]; vm_compute; eexists; reflexivity.
Qed.

(** ** Route Extractor *)

(** Induction on routes that reaches the routes of the sub-routers. *)
Lemma Route_nested_ind (P : Route -> Prop) :
  (forall tpl ms subs, Forall P subs -> P (mkRoute tpl ms subs)) ->
  forall t, P t.
Proof.
  intros step. fix IH 1. intros [tpl ms subs]. apply step.
  induction subs as [|s subs IHsubs]; constructor; [apply IH | exact IHsubs].
Qed.

Lemma extractRoutes_walkFn_spec (t : Route) (acc : list RouteInfo) :
  extractRoutes_walkFn t acc = ((acc ++ routeRecords t)%list, Continue).
Proof.
  unfold extractRoutes_walkFn, routeRecords.
  destruct (GetPathTemplate t) as [p|e]; [|by rewrite app_nil_r].
  destruct (GetMethods t) as [ms|e]; [|by rewrite app_nil_r].
  f_equal. revert acc. induction ms as [|m ms IH]; intros acc; cbn.
  - by rewrite app_nil_r.
  - rewrite IH, <- app_assoc. reflexivity.
Qed.

Lemma walkRoutes_spec (visit : Route -> list RouteInfo -> list RouteInfo * option error)
    (routes : list Route) :
  Forall (fun t => forall acc,
            visit t acc = ((acc ++ flat_map routeRecords (walkOrder t))%list, None))
         routes ->
  forall acc,
    walkRoutes visit routes acc =
    ((acc ++ flat_map routeRecords (flat_map walkOrder routes))%list, None).
Proof.
  induction 1 as [|t routes Ht _ IH]; intros acc; cbn [walkRoutes flat_map].
  - by rewrite app_nil_r.
  - rewrite Ht, IH, flat_map_app, <- app_assoc. reflexivity.
Qed.

Lemma walkRoute_extract (t : Route) (acc : list RouteInfo) :
  walkRoute extractRoutes_walkFn t acc =
  ((acc ++ flat_map routeRecords (walkOrder t))%list, None).
Proof.
  revert acc. induction t as [tpl ms subs IH] using Route_nested_ind.
  intros acc. cbn [walkRoute]. rewrite extractRoutes_walkFn_spec.
  cbn [subroutes]. rewrite (walkRoutes_spec _ subs IH).
  cbn [walkOrder flat_map subroutes]. rewrite <- app_assoc. reflexivity.
Qed.

(** The walk never fails, and it collects the records of the visited
    routes in walk order. *)
Lemma Walk_extract (router : Router) (acc : list RouteInfo) :
  Walk extractRoutes_walkFn router acc =
  ((acc ++ flat_map routeRecords (flat_map walkOrder router))%list, None).
Proof.
  unfold Walk. apply walkRoutes_spec.
  apply Forall_forall. intros t _ acc'. apply walkRoute_extract.
Qed.

Lemma extractRoutes_spec (router : Router) :
  extractRoutes router = flat_map routeRecords (flat_map walkOrder router).
Proof. unfold extractRoutes. rewrite Walk_extract. reflexivity. Qed.

Lemma extractRoutes_app (r1 r2 : Router) :
  extractRoutes (r1 ++ r2)%list = (extractRoutes r1 ++ extractRoutes r2)%list.
Proof. rewrite !extractRoutes_spec, !flat_map_app. reflexivity. Qed.

Lemma routeRecords_malformed (t : Route) : malformed t -> routeRecords t = [].
Proof.
  unfold routeRecords. intros [[e H] | [e H]]; rewrite H; [reflexivity|].
  destruct (GetPathTemplate t); reflexivity.
Qed.

(** C9: a route [t] whose path template or method set cannot be obtained
    is skipped without error.  The walk over a registry that holds [t] ends
    with a [nil] error.  What is extracted is, in walk order, the records of
    the other visited routes, which are the routes before [t], those of the
    sub-routers of [t] and those after [t]: every record of such a route,
    one per method, is in the result, and every record of the result is one
    of these, so that none stands for [t].  The paths of the document are
    built from these records alone. *)
Theorem C9_malformed_route_skipped (before after : Router) (t : Route) :
  malformed t ->
  let router := (before ++ t :: after)%list in
  let others := flat_map walkOrder (before ++ subroutes t ++ after)%list in
  Walk extractRoutes_walkFn router [] = (extractRoutes router, None) /\
  extractRoutes router = flat_map routeRecords others /\
  (forall t' path methods method,
     t' ∈ others ->
     GetPathTemplate t' = Val path -> GetMethods t' = Val methods ->
     method ∈ methods ->
     {| Method := method; Path := path;
        HandlerName := extractHandlerName path method;
        Tags := extractTags path |} ∈ extractRoutes router) /\
  (forall r,
     r ∈ extractRoutes router ->
     exists t' methods,
       t' ∈ others /\ GetPathTemplate t' = Val (Path r) /\
       GetMethods t' = Val methods /\ Method r ∈ methods) /\
  (forall info,
     exists spec,
       GenerateSwagger router info = Ok spec /\
       Paths spec = fold_left addRoute (flat_map routeRecords others) ∅).
Proof.
  intros Hbad router others.
  assert (Hout : extractRoutes router = flat_map routeRecords others).
  { subst router others. rewrite extractRoutes_spec.
    rewrite !flat_map_app. cbn [flat_map]. rewrite !flat_map_app.
    destruct t as [tpl ms subs]. cbn [walkOrder flat_map subroutes app].
    rewrite (routeRecords_malformed _ Hbad). reflexivity. }
  split.
  { rewrite Walk_extract, <- extractRoutes_spec. reflexivity. }
  split; [exact Hout|]. split; [|split].
  - rewrite Hout.
    intros t' path methods method Ht' Hpath Hmethods Hmethod.
    apply list_elem_of_In, in_flat_map. exists t'.
    split; [by apply list_elem_of_In|].
    unfold routeRecords. rewrite Hpath, Hmethods.
    apply in_map_iff. exists method. split; [reflexivity|].
    by apply list_elem_of_In.
  - rewrite Hout.
    intros r Hr. apply list_elem_of_In, in_flat_map in Hr as (t' & Ht' & Hr).
    unfold routeRecords in Hr.
    destruct (GetPathTemplate t') as [path|] eqn:Hpath; [|destruct Hr].
    destruct (GetMethods t') as [methods|] eqn:Hmethods; [|destruct Hr].
    apply in_map_iff in Hr as (method & <- & Hmethod).
    exists t', methods. cbn [recordOf Path Method].
    split; [by apply list_elem_of_In|]. split; [exact Hpath|].
    split; [exact Hmethods|]. by apply list_elem_of_In.
  - intros info. eexists. split; [apply GenerateSwagger_ok|].
    cbn [Paths]. by rewrite Hout.
Qed.

(** ** Paths *)

Lemma fold_addRoute_app (l1 l2 : list RouteInfo) (paths : gmap string PathItem) :
  fold_left addRoute (l1 ++ l2)%list paths =
  fold_left addRoute l2 (fold_left addRoute l1 paths).
Proof. apply fold_left_app. Qed.

Lemma verb_cases (method : string) :
  method ∈ verbs ->
  method = "GET" \/ method = "POST" \/ method = "PUT" \/ method = "DELETE".
Proof.
  unfold verbs. rewrite !elem_of_cons, elem_of_nil. tauto.
Qed.

Lemma not_verb_eqb (method : string) :
  method ∉ verbs ->
  (method =? "GET") = false /\ (method =? "POST") = false /\
  (method =? "PUT") = false /\ (method =? "DELETE") = false.
Proof.
  intros H. repeat split; apply eqb_false; intros ->; apply H; unfold verbs;
    repeat first [apply list_elem_of_here | apply list_elem_of_further].
Qed.

(** Reading back the slot that was just written. *)
Lemma getOperation_setOperation (method : string) (item : PathItem)
    (op : Operation) :
  method ∈ verbs -> getOperation method (setOperation method item op) = Some op.
Proof.
  intros H. apply verb_cases in H as [-> | [-> | [-> | ->]]]; reflexivity.
Qed.

(** Writing the slot of one verb leaves the slots of the others alone. *)
Lemma getOperation_setOperation_ne (m m' : string) (item : PathItem)
    (op : Operation) :
  m <> m' -> getOperation m (setOperation m' item op) = getOperation m item.
Proof.
  intros Hne. unfold setOperation.
  destruct (m' =? "GET") eqn:E1;
    [apply eqb_true in E1; subst m'|
     destruct (m' =? "POST") eqn:E2;
     [apply eqb_true in E2; subst m'|
      destruct (m' =? "PUT") eqn:E3;
      [apply eqb_true in E3; subst m'|
       destruct (m' =? "DELETE") eqn:E4;
       [apply eqb_true in E4; subst m'|reflexivity]]]];
    unfold getOperation; cbn [Get Post Put Delete];
    apply eqb_false in Hne; rewrite ?Hne; reflexivity.
Qed.

Lemma getOperation_PathItem0 (method : string) :
  getOperation method PathItem0 = None.
Proof.
  unfold getOperation, PathItem0. cbn [Get Post Put Delete].
  repeat match goal with |- context [if ?b then _ else _] => destruct b end;
    reflexivity.
Qed.

(** A route written to the map is read back from it. *)
Lemma lookupOperation_addRoute (paths : gmap string PathItem) (r : RouteInfo) :
  Method r ∈ verbs ->
  lookupOperation (addRoute paths r) (Path r) (Method r) =
  Some (generateOperation r).
Proof.
  intros H. unfold lookupOperation, addRoute.
  rewrite lookup_insert_eq. by apply getOperation_setOperation.
Qed.

(** A route leaves the slot of every other (method, path) pair alone. *)
Lemma lookupOperation_addRoute_other (paths : gmap string PathItem)
    (r : RouteInfo) (path method : string) :
  ~ (Method r = method /\ Path r = path) ->
  lookupOperation (addRoute paths r) path method =
  lookupOperation paths path method.
Proof.
  intros Hne. unfold lookupOperation, addRoute.
  destruct (decide (Path r = path)) as [<- | Hp].
  - rewrite lookup_insert_eq.
    assert (Hm : method <> Method r) by (intros ->; apply Hne; done).
    rewrite (getOperation_setOperation_ne _ _ _ _ Hm).
    destruct (paths !! Path r); [reflexivity | apply getOperation_PathItem0].
  - by rewrite lookup_insert_ne.
Qed.

Lemma lookupOperation_fold_other (routes : list RouteInfo)
    (paths : gmap string PathItem) (path method : string) :
  Forall (fun r => ~ (Method r = method /\ Path r = path)) routes ->
  lookupOperation (fold_left addRoute routes paths) path method =
  lookupOperation paths path method.
Proof.
  intros H. revert paths. induction H as [|r routes Hr _ IH]; intros paths.
  - reflexivity.
  - cbn [fold_left]. rewrite IH. by apply lookupOperation_addRoute_other.
Qed.

(** C7, amended: when a route list holds two records with the same
    method, one of GET, POST, PUT and DELETE, and the same path, the
    operation found in
    the final paths map for that path and method is the one built from the
    later record alone, whatever the earlier record and the records in
    between were; the paths map has one entry for the path. *)
Theorem C7_last_write_wins (spec : SwaggerSpec)
    (before between after : list RouteInfo) (r1 r2 : RouteInfo) :
  Method r1 = Method r2 -> Path r1 = Path r2 ->
  Method r2 ∈ verbs ->
  Forall (fun r => ~ (Method r = Method r2 /\ Path r = Path r2)) after ->
  exists spec' item,
    generatePaths spec (before ++ r1 :: between ++ r2 :: after)%list = Ok spec' /\
    Paths spec' !! Path r2 = Some item /\
    getOperation (Method r2) item = Some (generateOperation r2) /\
    lookupOperation (Paths spec') (Path r2) (Method r2) =
    Some (generateOperation r2).
Proof.
  intros _ _ Hverb Hafter.
  assert (Hlook :
    lookupOperation
      (fold_left addRoute (before ++ r1 :: between ++ r2 :: after)%list
         (Paths spec)) (Path r2) (Method r2) = Some (generateOperation r2)).
  { change (r1 :: between ++ r2 :: after)%list
      with (([r1] ++ between) ++ [r2] ++ after)%list.
    rewrite app_assoc, !fold_addRoute_app.
    rewrite (lookupOperation_fold_other after) by exact Hafter.
    cbn [fold_left]. by apply lookupOperation_addRoute. }
  unfold generatePaths. eexists. 
  unfold lookupOperation in Hlook.
  destruct (fold_left addRoute _ (Paths spec) !! Path r2) as [item|] eqn:E;
    [|discriminate Hlook].
  exists item. split; [reflexivity|]. cbn [withPaths Paths].
  split; [exact E|]. split; [exact Hlook|].
  unfold lookupOperation. rewrite E. exact Hlook.
Qed.

(** C10: a route whose method is none of GET, POST, PUT and DELETE is
    extracted like any other, and the path-building step gives its path an
    entry without writing any slot: the entry is the one the path had, or
    the empty [PathItem] when it had none.  A registry holding only such a
    route yields a document whose paths map has that one path, with no
    operation. *)
Theorem C10_unlisted_method (method path : string) (info : SwaggerInfo) :
  method ∉ verbs ->
  let route := {| GetPathTemplate := Val path; GetMethods := Val [method];
                  subroutes := [] |} in
  extractRoutes [route] = [recordOf method path] /\
  (forall (paths : gmap string PathItem) (r : RouteInfo),
     Method r = method ->
     addRoute paths r =
     <[Path r := default PathItem0 (paths !! Path r)]> paths) /\
  exists spec,
    GenerateSwagger [route] info = Ok spec /\
    Paths spec = {[ path := PathItem0 ]} /\
    (forall m, lookupOperation (Paths spec) path m = None).
Proof.
  intros Hm route. apply not_verb_eqb in Hm as (H1 & H2 & H3 & H4).
  assert (Hadd : forall (paths : gmap string PathItem) (r : RouteInfo),
             Method r = method ->
             addRoute paths r =
             <[Path r := default PathItem0 (paths !! Path r)]> paths).
  { intros paths r Hr. unfold addRoute, setOperation.
    rewrite Hr, H1, H2, H3, H4. destruct (paths !! Path r); reflexivity. }
  assert (Hx : extractRoutes [route] = [recordOf method path]).
  { rewrite extractRoutes_spec. reflexivity. }
  split; [exact Hx|]. split; [exact Hadd|].
  eexists. split; [apply GenerateSwagger_ok|]. cbn [Paths].
  rewrite Hx. cbn [fold_left].
  rewrite (Hadd ∅ (recordOf method path) eq_refl). cbn [recordOf Path].
  rewrite lookup_empty. cbn [default]. split; [reflexivity|].
  intros m. unfold lookupOperation.
  change (<[path:=PathItem0]> (∅ : gmap string PathItem) !! path)
    with (({[ path := PathItem0 ]} : gmap string PathItem) !! path).
  rewrite lookup_singleton_eq. apply getOperation_PathItem0.
Qed.

(** ** Serializer *)

Section order_irrelevant.
Context (MapKeys1 MapKeys2 : gset string -> list string).
Hypothesis valid1 : validOrder MapKeys1.
Hypothesis valid2 : validOrder MapKeys2.

(** Sorting forgets the order in which the keys were yielded. *)
Lemma sortedKeys_order_irrelevant (keys : gset string) :
  sortedKeys MapKeys1 keys = sortedKeys MapKeys2 keys.
Proof using valid1 valid2.
  unfold sortedKeys.
  apply (Sorted_unique String.le); try apply Sorted_merge_sort; try apply _.
  etrans; [apply merge_sort_Permutation|]. etrans; [apply valid1|].
  symmetry. etrans; [apply merge_sort_Permutation|]. apply valid2.
Qed.

Lemma mapJSON_order_irrelevant {V : Type} (enc1 enc2 : V -> JSON)
    (m : gmap string V) :
  (forall k v, m !! k = Some v -> enc1 v = enc2 v) ->
  mapJSON MapKeys1 enc1 m = mapJSON MapKeys2 enc2 m.
Proof using valid1 valid2.
  intros Henc. unfold mapJSON.
  rewrite sortedKeys_order_irrelevant.
  by rewrite (map_fmap_ext enc1 enc2 m Henc).
Qed.

Lemma omitemptyMap_order_irrelevant {V : Type} (name : string)
    (enc1 enc2 : V -> JSON) (m : gmap string V) :
  (forall k v, m !! k = Some v -> enc1 v = enc2 v) ->
  omitemptyMap MapKeys1 name enc1 m = omitemptyMap MapKeys2 name enc2 m.
Proof using valid1 valid2.
  intros Henc. unfold omitemptyMap.
  by rewrite (mapJSON_order_irrelevant enc1 enc2 m Henc).
Qed.

End order_irrelevant.

Lemma map_fold_sum_lookup {V : Type} (f : V -> nat) (m : gmap string V)
    (k : string) (v : V) :
  m !! k = Some v -> f v <= map_fold (fun _ x acc => f x + acc) 0 m.
Proof.
  revert k v.
  apply (map_fold_weak_ind
           (fun r m => forall k v, m !! k = Some v -> f v <= r)).
  - intros k v H. by rewrite lookup_empty in H.
  - intros i x m' r Hi IH k v Hk.
    destruct (decide (i = k)) as [-> | Hne].
    + rewrite lookup_insert_eq in Hk. injection Hk as ->. lia.
    + rewrite lookup_insert_ne in Hk by done. specialize (IH k v Hk). lia.
Qed.

Lemma schemaSize_property (s p : Schema) (k : string) :
  Properties s !! k = Some p -> schemaSize p < schemaSize s.
Proof.
  intros H. destruct s as [ty f props req items r ap ex].
  cbn [Properties] in H. cbn [schemaSize Properties Items].
  pose proof (map_fold_sum_lookup schemaSize props k p H). lia.
Qed.

Lemma schemaSize_items (s i : Schema) :
  Items s = Some i -> schemaSize i < schemaSize s.
Proof.
  intros H. destruct s as [ty f props req items r ap ex].
  cbn [Items] in H. subst items. cbn [schemaSize Properties Items]. lia.
Qed.

(** Induction on schemas that reaches the properties and the items. *)
Lemma Schema_nested_ind (P : Schema -> Prop) :
  (forall s,
     (forall k p, Properties s !! k = Some p -> P p) ->
     (forall i, Items s = Some i -> P i) ->
     P s) ->
  forall s, P s.
Proof.
  intros step s. remember (schemaSize s) as n eqn:Hn.
  revert s Hn. induction n as [n IH] using lt_wf_ind. intros s ->.
  apply step.
  - intros k p Hp. apply (IH (schemaSize p)); [|reflexivity].
    by apply (schemaSize_property s p k).
  - intros i Hi. apply (IH (schemaSize i)); [|reflexivity].
    by apply schemaSize_items.
Qed.

Section order_irrelevant_doc.
Context (MapKeys1 MapKeys2 : gset string -> list string).
Hypothesis valid1 : validOrder MapKeys1.
Hypothesis valid2 : validOrder MapKeys2.

Lemma schemaJSON_order_irrelevant (s : Schema) :
  schemaJSON MapKeys1 s = schemaJSON MapKeys2 s.
Proof using valid1 valid2.
  induction s as [s IHprops IHitems] using Schema_nested_ind.
  destruct s as [ty f props req items r ap ex].
  cbn [schemaJSON Type__ Format Properties Required Items Ref
       AdditionalProperties Example] in *.
  rewrite (omitemptyMap_order_irrelevant MapKeys1 MapKeys2 valid1 valid2
             "properties" _ _ props IHprops).
  destruct items as [i|]; [|reflexivity].
  by rewrite (IHitems i eq_refl).
Qed.

Lemma mediaTypeJSON_order_irrelevant (mt : MediaType) :
  mediaTypeJSON MapKeys1 mt = mediaTypeJSON MapKeys2 mt.
Proof using valid1 valid2.
  unfold mediaTypeJSON. by rewrite schemaJSON_order_irrelevant.
Qed.

Lemma content_order_irrelevant (content : gmap string MediaType) :
  mapJSON MapKeys1 (mediaTypeJSON MapKeys1) content =
  mapJSON MapKeys2 (mediaTypeJSON MapKeys2) content.
Proof using valid1 valid2.
  apply mapJSON_order_irrelevant; [done..|].
  intros _ mt _. apply mediaTypeJSON_order_irrelevant.
Qed.

Lemma responseJSON_order_irrelevant (r : Response) :
  responseJSON MapKeys1 r = responseJSON MapKeys2 r.
Proof using valid1 valid2.
  unfold responseJSON, omitemptyMap. by rewrite content_order_irrelevant.
Qed.

Lemma operationJSON_order_irrelevant (op : Operation) :
  operationJSON MapKeys1 op = operationJSON MapKeys2 op.
Proof using valid1 valid2.
  unfold operationJSON.
  rewrite (mapJSON_order_irrelevant MapKeys1 MapKeys2 valid1 valid2
             (responseJSON MapKeys1) (responseJSON MapKeys2))
    by (intros; apply responseJSON_order_irrelevant).
  assert (Hps : map (parameterJSON MapKeys1) (opParameters op) =
                map (parameterJSON MapKeys2) (opParameters op)).
  { apply map_ext. intros p. unfold parameterJSON.
    by rewrite schemaJSON_order_irrelevant. }
  destruct (opParameters op) as [|p ps]; [|rewrite Hps];
    (destruct (opRequestBody op) as [body|]; [|reflexivity]);
    unfold requestBodyJSON; by rewrite content_order_irrelevant.
Qed.

Lemma pathItemJSON_order_irrelevant (item : PathItem) :
  pathItemJSON MapKeys1 item = pathItemJSON MapKeys2 item.
Proof using valid1 valid2.
  unfold pathItemJSON, omitemptyOperation.
  destruct (Get item), (Post item), (Put item), (Delete item);
    by rewrite ?operationJSON_order_irrelevant.
Qed.

(** The JSON value of a document does not depend on the order in which the
    runtime yields the keys of its maps. *)
Lemma specJSON_order_irrelevant (spec : SwaggerSpec) :
  specJSON MapKeys1 spec = specJSON MapKeys2 spec.
Proof using valid1 valid2.
  unfold specJSON.
  rewrite (mapJSON_order_irrelevant MapKeys1 MapKeys2 valid1 valid2
             (pathItemJSON MapKeys1) (pathItemJSON MapKeys2))
    by (intros; apply pathItemJSON_order_irrelevant).
  rewrite (mapJSON_order_irrelevant MapKeys1 MapKeys2 valid1 valid2
             (schemaJSON MapKeys1) (schemaJSON MapKeys2))
    by (intros; apply schemaJSON_order_irrelevant).
  reflexivity.
Qed.

End order_irrelevant_doc.

(** C8: two runs of the pipeline over the same registry and the same info
    write the same bytes.  The document is a function of the registry and of
    the info only (no clock is read), and its serialization does not depend
    on the one thing that may differ between two runs, the order in which
    the runtime yields the keys of the maps: whatever these orders are, the
    two byte strings are equal, and so are the results of writing them. *)
Theorem C8_deterministic_output
    (MapKeys1 MapKeys2 : gset string -> list string)
    (encodeIndent : JSON -> string)
    (FS : Type) (WriteFile : string -> string -> N -> FS -> FS * option error)
    (router : Router) (info : SwaggerInfo) (filename : string) (fs : FS) :
  validOrder MapKeys1 -> validOrder MapKeys2 ->
  exists spec,
    GenerateSwagger router info = Ok spec /\
    MarshalIndent MapKeys1 encodeIndent spec =
    MarshalIndent MapKeys2 encodeIndent spec /\
    SaveSwaggerSpec MapKeys1 encodeIndent FS WriteFile spec filename fs =
    SaveSwaggerSpec MapKeys2 encodeIndent FS WriteFile spec filename fs.
Proof.
  intros valid1 valid2. eexists. split; [apply GenerateSwagger_ok|].
  unfold SaveSwaggerSpec, MarshalIndent.
  by rewrite (specJSON_order_irrelevant MapKeys1 MapKeys2 valid1 valid2).
Qed.

(** ** The paths map as a function of the extracted routes *)

(** Every extracted record is the one built from its method and path. *)
Lemma extractRoutes_records (router : Router) :
  Forall (fun r => r = recordOf (Method r) (Path r)) (extractRoutes router).
Proof.
  rewrite extractRoutes_spec. apply Forall_forall. intros r Hr.
  apply list_elem_of_In, in_flat_map in Hr as (t & _ & Hr).
  unfold routeRecords in Hr.
  destruct (GetPathTemplate t) as [p|]; [|destruct Hr].
  destruct (GetMethods t) as [ms|]; [|destruct Hr].
  apply in_map_iff in Hr as (m & <- & _). reflexivity.
Qed.

Lemma getOperation_not_verb (method : string) (item : PathItem) :
  method ∉ verbs -> getOperation method item = None.
Proof.
  intros H. apply not_verb_eqb in H as (H1 & H2 & H3 & H4).
  unfold getOperation. rewrite H1, H2, H3, H4. reflexivity.
Qed.

Lemma getOperation_Some_verb (method : string) (item : PathItem)
    (op : Operation) :
  getOperation method item = Some op -> method ∈ verbs.
Proof.
  intros H. destruct (decide (method ∈ verbs)) as [|Hn]; [done|].
  by rewrite (getOperation_not_verb _ _ Hn) in H.
Qed.

Lemma dom_addRoute (paths : gmap string PathItem) (r : RouteInfo) :
  dom (addRoute paths r) = {[ Path r ]} ∪ dom paths.
Proof. unfold addRoute. apply dom_insert_L. Qed.

Lemma dom_fold_addRoute (routes : list RouteInfo)
    (paths : gmap string PathItem) :
  dom (fold_left addRoute routes paths) =
  list_to_set (Path <$> routes) ∪ dom paths.
Proof.
  revert paths. induction routes as [|r routes IH]; intros paths.
  - cbn. by rewrite (left_id_L ∅ (∪)).
  - cbn [fold_left]. rewrite IH, dom_addRoute.
    change (Path <$> r :: routes) with (Path r :: (Path <$> routes)).
    cbn [list_to_set].
    rewrite (assoc_L (∪)), (comm_L (∪) _ {[Path r]}). reflexivity.
Qed.

(** What is documented for a method on a path after a list of records has
    been processed, when each record is the one built from its method and
    path. *)
Lemma lookupOperation_fold (routes : list RouteInfo) (path method : string)
    (op : Operation) :
  Forall (fun r => r = recordOf (Method r) (Path r)) routes ->
  lookupOperation (fold_left addRoute routes ∅) path method = Some op <->
  method ∈ verbs /\ recordOf method path ∈ routes /\
  op = generateOperation (recordOf method path).
Proof.
  induction routes as [|r routes IH] using rev_ind; intros Hall.
  - cbn. unfold lookupOperation. rewrite lookup_empty. split; [done|].
    intros (_ & H & _). by apply elem_of_nil in H.
  - apply Forall_app in Hall as [Hall Hr].
    apply (proj1 (Forall_singleton _ _)) in Hr.
    specialize (IH Hall). rewrite fold_addRoute_app. cbn [fold_left].
    destruct (decide (Method r = method /\ Path r = path)) as [[Hm Hp]|Hne].
    + subst method path. destruct (decide (Method r ∈ verbs)) as [Hv|Hv].
      * rewrite lookupOperation_addRoute by done. rewrite <- Hr. split.
        -- intros [= <-]. split; [done|]. split; [|done].
           apply elem_of_app. right. apply list_elem_of_here.
        -- intros (_ & _ & ->). reflexivity.
      * unfold lookupOperation, addRoute. rewrite lookup_insert_eq.
        rewrite getOperation_not_verb by done. split; [done|].
        intros (Hv' & _). done.
    + rewrite lookupOperation_addRoute_other by done. rewrite IH.
      split; intros (Hv & Hin & ->); repeat split; try done.
      * apply elem_of_app. by left.
      * apply elem_of_app in Hin as [Hin|Hin]; [done|].
        apply list_elem_of_singleton in Hin. subst r.
        exfalso. apply Hne. done.
Qed.

(** Two path items with the same four slots are equal. *)
Lemma PathItem_eq (i1 i2 : PathItem) :
  (forall m, getOperation m i1 = getOperation m i2) -> i1 = i2.
Proof.
  intros H. destruct i1 as [g1 p1 u1 d1], i2 as [g2 p2 u2 d2].
  pose proof (H "GET") as Hg. pose proof (H "POST") as Hp.
  pose proof (H "PUT") as Hu. pose proof (H "DELETE") as Hd.
  cbn in Hg, Hp, Hu, Hd. by subst.
Qed.

Lemma option_eq_Some {A} (o1 o2 : option A) :
  (forall x, o1 = Some x <-> o2 = Some x) -> o1 = o2.
Proof.
  intros H. destruct o1 as [x|], o2 as [y|]; try done.
  - by apply H.
  - symmetry. by apply H.
  - by apply H.
Qed.

(** The paths map depends on the set of extracted records only, not on
    their order or multiplicity. *)
Lemma fold_addRoute_same_records (routes1 routes2 : list RouteInfo) :
  Forall (fun r => r = recordOf (Method r) (Path r)) routes1 ->
  Forall (fun r => r = recordOf (Method r) (Path r)) routes2 ->
  (forall r, r ∈ routes1 <-> r ∈ routes2) ->
  fold_left addRoute routes1 ∅ = fold_left addRoute routes2 ∅.
Proof.
  intros H1 H2 Hsame. apply map_eq. intros p.
  assert (Hdom : dom (fold_left addRoute routes1 ∅) =
                 dom (fold_left addRoute routes2 ∅)).
  { rewrite !dom_fold_addRoute. f_equal. apply set_eq. intros x.
    rewrite !elem_of_list_to_set, !list_elem_of_fmap.
    split; intros (r & -> & Hr); exists r; split; try done; by apply Hsame. }
  assert (Hlook : forall m,
             lookupOperation (fold_left addRoute routes1 ∅) p m =
             lookupOperation (fold_left addRoute routes2 ∅) p m).
  { intros m. apply option_eq_Some. intros op.
    rewrite (lookupOperation_fold routes1) by done.
    rewrite (lookupOperation_fold routes2) by done.
    by rewrite Hsame. }
  unfold lookupOperation in Hlook.
  destruct (fold_left addRoute routes1 ∅ !! p) as [i1|] eqn:E1,
           (fold_left addRoute routes2 ∅ !! p) as [i2|] eqn:E2.
  - f_equal. by apply PathItem_eq.
  - exfalso. apply (not_elem_of_dom_2 _ _ E2). rewrite <- Hdom.
    by apply (elem_of_dom_2 _ _ _ E1).
  - exfalso. apply (not_elem_of_dom_2 _ _ E1). rewrite Hdom.
    by apply (elem_of_dom_2 _ _ _ E2).
  - reflexivity.
Qed.

(** X1: the paths of the generated document are exactly the paths of the
    extracted routes, and the operation documented for a method on a path
    is the one generated from that method and path, present exactly when
    the method is one of the four verbs and the route was extracted. *)
Theorem paths_of_document (router : Router) (info : SwaggerInfo) :
  exists spec,
    GenerateSwagger router info = Ok spec /\
    dom (Paths spec) = list_to_set (Path <$> extractRoutes router) /\
    forall path method op,
      lookupOperation (Paths spec) path method = Some op <->
      method ∈ verbs /\ recordOf method path ∈ extractRoutes router /\
      op = generateOperation (recordOf method path).
Proof.
  eexists. split; [apply GenerateSwagger_ok|]. cbn [Paths]. split.
  - rewrite dom_fold_addRoute, dom_empty_L. by rewrite (right_id_L ∅ (∪)).
  - intros path method op. apply lookupOperation_fold, extractRoutes_records.
Qed.

(** X2: the document does not depend on the order in which the registry
    yields its routes, nor on a route being registered twice: two
    registries with the same extracted records give the same document. *)
Theorem document_order_insensitive (router1 router2 : Router)
    (info : SwaggerInfo) :
  (forall r, r ∈ extractRoutes router1 <-> r ∈ extractRoutes router2) ->
  GenerateSwagger router1 info = GenerateSwagger router2 info.
Proof.
  intros Hsame. rewrite !GenerateSwagger_ok. do 2 f_equal.
  apply fold_addRoute_same_records;
    [apply extractRoutes_records..|exact Hsame].
Qed.

(** ** Responses and operations, for every method and path *)

Ltac response_keys :=
  rewrite ?dom_insert_L, ?dom_empty_L;
  repeat rewrite ?elem_of_union, ?elem_of_singleton, ?elem_of_empty;
  rewrite ?elem_of_cons, ?elem_of_nil.

(** X3: away from the health path, the responses of an operation always
    include 400 and 500 and are among 200, 201, 404, 400 and 500; 404 is
    there exactly for a GET on a path with [{id}], 201 exactly for a POST,
    and 200 exactly for GET, PUT and DELETE.  For a method outside the four
    verbs the responses are 400 and 500 alone. *)
Theorem responses_keys (method path : string) :
  path <> "/api/health" ->
  let keys := dom (generateResponses method path) in
  "400" ∈ keys /\ "500" ∈ keys /\
  (forall k, k ∈ keys -> k ∈ ["200"; "201"; "404"; "400"; "500"]) /\
  ("404" ∈ keys <-> method = "GET" /\ strings.Contains path "{id}" = true) /\
  ("201" ∈ keys <-> method = "POST") /\
  ("200" ∈ keys <-> method ∈ ["GET"; "PUT"; "DELETE"]) /\
  (method ∉ verbs -> keys = {[ "400"; "500" ]}).
Proof.
  intros Hp keys. subst keys. unfold generateResponses.
  apply eqb_false in Hp. rewrite Hp. unfold verbs.
  destruct (method =? "GET") eqn:E1;
    [apply eqb_true in E1; subst method;
     destruct (strings.Contains path "{id}") eqn:Eid|
     apply eqb_false in E1;
     destruct (method =? "POST") eqn:E2;
     [apply eqb_true in E2; subst method|
      apply eqb_false in E2;
      destruct (method =? "PUT") eqn:E3;
      [apply eqb_true in E3; subst method|
       apply eqb_false in E3;
       destruct (method =? "DELETE") eqn:E4;
       [apply eqb_true in E4; subst method|apply eqb_false in E4]]]];
    response_keys;
    (repeat split; [tauto | tauto | intros k; response_keys; tauto | ..]);
    try (intros; exfalso; tauto);
    try (response_keys; intuition (discriminate || congruence)).
Qed.

(** X4: the shape of a generated operation, for every record.  It has a
    request body exactly when the method is POST or PUT and the path
    contains [/users]; it has a parameter (one, named [id]) exactly when the
    path contains [{id}]; its tags are those of the record; and on the
    health path its only response is 200, whatever the method. *)
Theorem operation_shape (route : RouteInfo) :
  let op := generateOperation route in
  (is_Some (opRequestBody op) <->
   (Method route = "POST" \/ Method route = "PUT") /\
   strings.Contains (Path route) "/users" = true) /\
  (opParameters op <> [] <-> strings.Contains (Path route) "{id}" = true) /\
  (forall p, p ∈ opParameters op -> opParameters op = [p] /\ pName p = "id") /\
  opTags op = Tags route /\
  (Path route = "/api/health" -> dom (opResponses op) = {[ "200" ]}).
Proof.
  cbn zeta. unfold generateOperation.
  cbn [opRequestBody opParameters opTags opResponses].
  split; [|split; [|split; [|split]]].
  - unfold generateRequestBody.
    destruct (strings.Contains (Path route) "/users") eqn:E3;
      (destruct (Method route =? "POST") eqn:E1;
       [apply eqb_true in E1|apply eqb_false in E1]);
      (destruct (Method route =? "PUT") eqn:E2;
       [apply eqb_true in E2|apply eqb_false in E2]);
      cbn [orb]; split;
      try (intros [x Hx]; discriminate Hx); try (intros _; eauto; fail);
      intros [[?|?] ?]; congruence.
  - destruct (strings.Contains (Path route) "{id}"); split; congruence.
  - destruct (strings.Contains (Path route) "{id}"); intros p Hp.
    + apply list_elem_of_singleton in Hp. subst p. split; reflexivity.
    + by apply elem_of_nil in Hp.
  - reflexivity.
  - intros ->. vm_compute. reflexivity.
Qed.

(** ** Schema Deriver, for every type *)

Lemma generateModelSchema_unfold (t : Type_) :
  generateModelSchema t =
  let fields (t : Type_) :=
    match tFields t with
    | None => Panic
    | Some fs => fieldLoop fs (SchemaOfType "object")
    end in
  match tKind t with
  | Pointer =>
      match tElem t with
      | None => Panic
      | Some t' => fields t'
      end
  | _ => fields t
  end.
Proof. destruct t as [k s e fs]. reflexivity. Qed.

(** What the field loop does to the schema it is given. *)
Lemma fieldLoop_spec (fs : list StructField) (schema s : Schema) :
  fieldLoop fs schema = Ok s ->
  Type__ s = Type__ schema /\
  dom (Properties s) =
  dom (Properties schema) ∪ list_to_set (wireName <$> List.filter included fs) /\
  Required s =
  (Required schema ++ (wireName <$> List.filter requiredField fs))%list.
Proof.
  revert schema. induction fs as [|f fs IH]; intros schema H; cbn in H.
  - injection H as <-. cbn. rewrite (right_id_L ∅ (∪)), app_nil_r. done.
  - unfold requiredField, included. cbn [List.filter].
    destruct ((fTagJson f =? "") || (fTagJson f =? "-")) eqn:Eskip;
      cbn [negb andb].
    + by apply IH.
    + destruct (generateFieldSchema (fType f)) as [fieldSchema| |] eqn:Ef;
        cbn [obind] in H; try discriminate H.
      apply IH in H as (Hty & Hdom & Hreq).
      rewrite Hty, Hdom, Hreq. unfold addField.
      cbn [Type__ Properties Required]. fold (wireName f).
      rewrite dom_insert_L. split; [done|]. split.
      * rewrite fmap_cons. cbn [list_to_set].
        rewrite (assoc_L (∪) (dom (Properties schema))). f_equal.
        apply (comm_L (∪)).
      * destruct (strings.Contains (fTagJson f) "omitempty"); cbn [negb].
        -- done.
        -- rewrite fmap_cons, <- app_assoc. done.
Qed.

(** X5: the schema derived for a struct type is an object whose property
    names are the wire names of the fields that have a [json] tag other
    than ["-"], and whose [required] list holds, in field order, the wire
    names of those of them whose tag does not contain [omitempty]. *)
Theorem model_schema_fields (t : Type_) (fs : list StructField) (s : Schema) :
  tKind t <> Pointer -> tFields t = Some fs ->
  generateModelSchema t = Ok s ->
  Type__ s = "object" /\
  dom (Properties s) = list_to_set (wireName <$> List.filter included fs) /\
  Required s = wireName <$> List.filter requiredField fs.
Proof.
  intros Hk Hfs H. rewrite generateModelSchema_unfold in H. cbv beta zeta in H.
  rewrite Hfs in H.
  assert (Hloop : fieldLoop fs (SchemaOfType "object") = Ok s).
  { destruct (tKind t); try exact H. done. }
  apply fieldLoop_spec in Hloop as (Hty & Hdom & Hreq).
  rewrite Hty, Hdom, Hreq. cbn [SchemaOfType Type__ Properties Required].
  rewrite dom_empty_L, (left_id_L ∅ (∪)). done.
Qed.

(** Induction on types that reaches the element type and the types of the
    fields. *)
Lemma Type_nested_ind (P : Type_ -> Prop) :
  (forall k s e fs,
     (forall t', e = Some t' -> P t') ->
     (forall l, fs = Some l -> Forall (fun f => P (fType f)) l) ->
     P (mkType k s e fs)) ->
  forall t, P t.
Proof.
  intros step. fix IH 1. intros [k s e fs]. apply step.
  - destruct e as [t0|]; [|discriminate]. intros t' [= <-]. apply IH.
  - destruct fs as [l0|]; [|discriminate]. intros l [= <-].
    induction l0 as [|[n ty tag] l0 IHl]; constructor; [apply IH | exact IHl].
Qed.

Lemma fieldLoop_ok (fs : list StructField) :
  Forall (fun f => exists s, generateFieldSchema (fType f) = Ok s) fs ->
  forall schema, exists s, fieldLoop fs schema = Ok s.
Proof.
  induction 1 as [|f fs [fieldSchema Hf] _ IH]; intros schema; cbn.
  - by eexists.
  - destruct ((fTagJson f =? "") || (fTagJson f =? "-")); [apply IH|].
    rewrite Hf. cbn [obind]. apply IH.
Qed.

Lemma structsHaveFields_inv (k : Kind) (s : string) (e : option Type_)
    (fs : option (list StructField)) :
  structsHaveFields (mkType k s e fs) = true ->
  (k = Struct <-> is_Some fs) /\
  (forall l, fs = Some l ->
             Forall (fun f => structsHaveFields (fType f) = true) l) /\
  (forall t', e = Some t' -> structsHaveFields t' = true).
Proof.
  cbn [structsHaveFields]. intros H. apply andb_true_iff in H as [H1 H2].
  split; [|split].
  - destruct fs as [l|].
    + apply andb_true_iff in H1 as [H1 _]. apply bool_decide_eq_true in H1.
      split; [by eexists | done].
    + apply negb_true_iff, bool_decide_eq_false in H1.
      split; [done | by intros [? ?]].
  - intros l ->. apply andb_true_iff in H1 as [_ H1].
    apply Forall_forall. intros f Hf. rewrite forallb_forall in H1.
    apply H1. by apply list_elem_of_In.
  - by intros t' ->.
Qed.

(** X6: on the types that [reflect] builds, schema derivation never
    panics: every field type gets a schema, whose [type] is one of the six
    JSON types, and every struct type gets an object schema. *)
Theorem schema_derivation_total (t : Type_) :
  structsHaveFields t = true ->
  (exists s, generateFieldSchema t = Ok s /\ Type__ s ∈ jsonTypes) /\
  (tKind t = Struct ->
   exists s, generateModelSchema t = Ok s /\ Type__ s = "object").
Proof.
  induction t as [k name e fs IHe IHfs] using Type_nested_ind. intros Hwf.
  apply structsHaveFields_inv in Hwf as (Hstruct & Hfields & _).
  assert (Hmodel : k = Struct ->
            exists s, generateModelSchema (mkType k name e fs) = Ok s /\
                      Type__ s = "object").
  { intros ->. destruct (proj1 Hstruct eq_refl) as [l ->].
    rewrite generateModelSchema_unfold. cbv beta zeta. cbn [tKind tFields].
    destruct (fieldLoop_ok l) with (schema := SchemaOfType "object")
      as [s Hs].
    { specialize (IHfs l eq_refl). specialize (Hfields l eq_refl).
      apply Forall_forall. intros f Hf.
      rewrite Forall_forall in IHfs, Hfields.
      destruct (IHfs f Hf (Hfields f Hf)) as [(s & Hs & _) _]. by exists s. }
    exists s. split; [exact Hs|].
    by apply fieldLoop_spec in Hs as (-> & _). }
  split; [|exact Hmodel].
  unfold generateFieldSchema, generateFieldSchema_in. cbn [tKind tString].
  unfold jsonTypes.
  destruct k; try (eexists; split; [reflexivity|]; cbn [Type__ SchemaOfType
    SchemaOfTypeFormat];
    repeat first [apply list_elem_of_here | apply list_elem_of_further]).
  destruct (name =? "time.Time").
  - eexists; split; [reflexivity|]. apply list_elem_of_here.
  - destruct (Hmodel eq_refl) as (s & Hs & Hty). exists s. split; [exact Hs|].
    rewrite Hty.
    repeat first [apply list_elem_of_here | apply list_elem_of_further].
Qed.

(** X7: a pointer to a struct has the schema of the struct; a type without
    fields, reached directly or through one pointer, makes the deriver
    panic (only one level of pointer is followed). *)
Theorem model_schema_pointer (t e : Type_) :
  tKind t = Pointer -> tElem t = Some e ->
  (tKind e = Struct -> generateModelSchema t = generateModelSchema e) /\
  (tFields e = None -> generateModelSchema t = Panic).
Proof.
  intros Hk He. rewrite !generateModelSchema_unfold. cbv beta zeta.
  rewrite Hk, He. split.
  - intros ->. reflexivity.
  - intros ->. reflexivity.
Qed.

(** ** The callers: route listing, environment, output directory *)

(** X8: wherever the summary written to the document is not the generic
    [<METHOD> <path>] text, it is the description that [PrintRoutes] prints
    for the same route (the two Swagger routes aside, which only the
    listing knows). *)
Theorem summary_agrees_with_listing (method path : string) :
  path <> "/swagger.json" ->
  strings.HasPrefix path "/swagger/" = false ->
  generateSummary method path <>
  Sprintf_s_s method (strings.TrimPrefix path "/api") ->
  router.getRouteDescription method path = generateSummary method path.
Proof.
  intros Hjson Hui. unfold generateSummary, router.getRouteDescription.
  apply eqb_false in Hjson. rewrite Hjson, Hui. cbv zeta.
  repeat match goal with
         | |- context [if ?b then _ else _] =>
             lazymatch b with
             | context [if _ then _ else _] => fail
             | _ => destruct b; [intros _; reflexivity|]
             end
         end.
  intros H. exfalso. apply H. reflexivity.
Qed.

Section Walk_emit.
Context {A : Type} (emit : Route -> list A).
Context (walkFn : Route -> list A -> list A * WalkResult).
Hypothesis walkFn_emit :
  forall t acc, walkFn t acc = ((acc ++ emit t)%list, Continue).

Lemma walkRoutes_emit (routes : list Route) :
  Forall (fun t => forall acc,
            walkRoute walkFn t acc =
            ((acc ++ flat_map emit (walkOrder t))%list, None)) routes ->
  forall acc,
    walkRoutes (walkRoute walkFn) routes acc =
    ((acc ++ flat_map emit (flat_map walkOrder routes))%list, None).
Proof using Type.
  induction 1 as [|t routes Ht _ IH]; intros acc; cbn [walkRoutes flat_map].
  - by rewrite app_nil_r.
  - rewrite Ht, IH, flat_map_app, <- app_assoc. reflexivity.
Qed.

Lemma walkRoute_emit (t : Route) (acc : list A) :
  walkRoute walkFn t acc = ((acc ++ flat_map emit (walkOrder t))%list, None).
Proof using walkFn_emit.
  revert acc. induction t as [tpl ms subs IH] using Route_nested_ind.
  intros acc. cbn [walkRoute]. rewrite walkFn_emit.
  cbn [subroutes]. rewrite (walkRoutes_emit subs IH).
  cbn [walkOrder flat_map subroutes]. rewrite <- app_assoc. reflexivity.
Qed.

(** A walk whose callback only appends to its state and returns [nil]
    visits every route, sub-routers included, and never fails. *)
Lemma Walk_emit (router : Router) (acc : list A) :
  Walk walkFn router acc =
  ((acc ++ flat_map emit (flat_map walkOrder router))%list, None).
Proof using walkFn_emit.
  unfold Walk. apply walkRoutes_emit.
  apply Forall_forall. intros t _ acc'. apply walkRoute_emit.
Qed.

End Walk_emit.

Lemma router_walkFn_emit (t : Route) (acc : list router.RouteInfo) :
  router.extractRoutes_walkFn t acc =
  ((acc ++ map (fun r => router.mkRouteInfo (Method r) (Path r))
             (routeRecords t))%list, Continue).
Proof.
  unfold router.extractRoutes_walkFn, routeRecords.
  destruct (GetPathTemplate t) as [p|e]; [|by rewrite app_nil_r].
  destruct (GetMethods t) as [ms|e]; [|by rewrite app_nil_r].
  f_equal. revert acc. induction ms as [|m ms IH]; intros acc; cbn.
  - by rewrite app_nil_r.
  - rewrite IH, <- app_assoc. reflexivity.
Qed.

Lemma router_extractRoutes_spec (r : Router) :
  router.extractRoutes r =
  (map (fun i => router.mkRouteInfo (Method i) (Path i)) (extractRoutes r), []).
Proof.
  unfold router.extractRoutes.
  rewrite (Walk_emit _ _ router_walkFn_emit). cbn [app].
  rewrite extractRoutes_spec. f_equal.
  induction (flat_map walkOrder r) as [|t l IH]; [reflexivity|].
  cbn [flat_map]. rewrite map_app, IH. reflexivity.
Qed.

(** X9: the listing printed at start-up and the document are built from
    the same routes: [router.extractRoutes] returns, in the same order, the
    method and path of each record of the document generator's
    [extractRoutes], and prints no error. *)
Theorem listing_matches_document (r : Router) :
  router.extractRoutes r =
  (map (fun i => router.mkRouteInfo (Method i) (Path i)) (extractRoutes r), []).
Proof. apply router_extractRoutes_spec. Qed.

(** [getEnv] answers with the fallback exactly when the variable is unset
    or empty; its answer is empty only if the fallback is. *)
Lemma getEnv_lookup (env : gmap string string) (key fallback : string) :
  getEnv env key fallback =
  match env !! key with
  | Some value => if value =? "" then fallback else value
  | None => fallback
  end.
Proof.
  unfold getEnv, Getenv. destruct (env !! key) as [v|]; cbn.
  - by destruct (v =? "").
  - reflexivity.
Qed.

(** X10: the document served at [/swagger.json] has one server, with the
    URL [http://host:port].  The host is the value of [SERVER_HOST], or
    [localhost] when the variable is unset, empty or exactly [0.0.0.0]; the
    port is the value of [SERVER_PORT], or [3000] when the variable is unset
    or empty.  So neither is empty, and the host is not [0.0.0.0]. *)
Theorem served_document_server (env : gmap string string) (r : Router) :
  let host :=
    match env !! "SERVER_HOST" with
    | Some value =>
        if (value =? "") || (value =? "0.0.0.0") then "localhost" else value
    | None => "localhost"
    end in
  let port :=
    match env !! "SERVER_PORT" with
    | Some value => if value =? "" then "3000" else value
    | None => "3000"
    end in
  exists spec,
    generateSwaggerSpec env r = Ok spec /\
    Servers spec = [ {| srvURL := "http://" ++ host ++ ":" ++ port;
                        srvDescription := "Development server" |} ] /\
    host <> "" /\ host <> "0.0.0.0" /\ port <> "".
Proof.
  intros host port.
  assert (Hhost :
    (if getEnv env "SERVER_HOST" "localhost" =? "0.0.0.0" then "localhost"
     else getEnv env "SERVER_HOST" "localhost") = host).
  { rewrite getEnv_lookup. subst host.
    destruct (env !! "SERVER_HOST") as [v|]; [|reflexivity].
    destruct (v =? "") eqn:E; reflexivity. }
  assert (Hport : getEnv env "SERVER_PORT" "3000" = port).
  { apply getEnv_lookup. }
  unfold generateSwaggerSpec. cbv zeta. rewrite GenerateSwagger_ok.
  eexists. split; [reflexivity|]. cbn [Servers Host].
  rewrite Hhost, Hport. split; [reflexivity|].
  subst host port.
  destruct (env !! "SERVER_HOST") as [h|], (env !! "SERVER_PORT") as [p|];
    repeat match goal with
           | |- context [?a =? ?b] =>
               let E := fresh "E" in
               destruct (a =? b) eqn:E;
               [apply eqb_true in E | apply eqb_false in E]
           end;
    cbn [orb]; repeat split; first [discriminate | assumption].
Qed.

Lemma LastIndex_app_sep (dir file : string) (c : ascii) :
  LastIndex file c = None ->
  LastIndex (dir ++ String c file) c = Some (String.length dir).
Proof.
  intros H. induction dir as [|a dir IH].
  - change (LastIndex ("" ++ String c file) c)
      with (match LastIndex file c with
            | Some i => Some (S i)
            | None => if Ascii.eqb c c then Some 0 else None
            end).
    by rewrite H, Ascii.eqb_refl.
  - change (LastIndex (String a dir ++ String c file) c)
      with (match LastIndex (dir ++ String c file) c with
            | Some i => Some (S i)
            | None => if Ascii.eqb a c then Some 0 else None
            end).
    by rewrite IH.
Qed.

Lemma substring_app_prefix (s1 s2 : string) :
  String.substring 0 (String.length s1) (s1 ++ s2) = s1.
Proof.
  induction s1 as [|a s1 IH].
  - by destruct s2.
  - change (String.substring 0 (String.length (String a s1))
              (String a s1 ++ s2))
      with (String a (String.substring 0 (String.length s1) (s1 ++ s2))).
    by rewrite IH.
Qed.

(** X11: [getDir] returns what precedes the last slash: for a file name
    without a slash placed under a directory it gives the directory back,
    and for a path without any slash it gives ["."]. *)
Theorem getDir_of_file (dir file : string) :
  LastIndex file "/" = None ->
  getDir (dir ++ "/" ++ file) = dir /\ getDir file = ".".
Proof.
  intros H. unfold getDir. rewrite H. split; [|reflexivity].
  change (dir ++ "/" ++ file) with (dir ++ String "/" file).
  rewrite (LastIndex_app_sep dir file "/" H). apply substring_app_prefix.
Qed.

(** ** Route extraction and the sorted listing *)

(** X12: route extraction visits every route of the router, sub-routers
    included, in walk order, and never fails; a visited route contributes
    one record per method when both its path template and its method set
    are available, and nothing otherwise.  Every record carries the handler
    name and the single tag computed from its own path. *)
Theorem extraction_in_walk_order (r : Router) :
  Walk extractRoutes_walkFn r [] =
  (flat_map routeRecords (flat_map walkOrder r), None) /\
  extractRoutes r = flat_map routeRecords (flat_map walkOrder r) /\
  Forall (fun i =>
            HandlerName i = extractHandlerName (Path i) (Method i) /\
            Tags i = extractTags (Path i) /\
            exists tag, Tags i = [tag] /\ tag ∈ ["Users"; "Health"; "API"])
         (extractRoutes r).
Proof.
  split; [apply Walk_extract|]. split; [apply extractRoutes_spec|].
  eapply Forall_impl; [apply extractRoutes_records|].
  intros i Hi. cbn beta in Hi. rewrite Hi. cbn [recordOf HandlerName Tags Path Method].
  split; [reflexivity|]. split; [reflexivity|].
  unfold extractTags.
  destruct (strings.Contains (Path i) "/users");
    [|destruct (strings.Contains (Path i) "/health")];
    eexists; (split; [reflexivity|]);
    repeat first [apply list_elem_of_here | apply list_elem_of_further].
Qed.

Lemma ltb_false_le (a b : string) : String.ltb b a = false <-> String.le a b.
Proof.
  unfold String.le, String.leb, String.ltb.
  rewrite (String.compare_antisym a b).
  destruct (String.compare b a); cbn; split; done.
Qed.

Lemma routeLe_spec (a b : router.RouteInfo) :
  routeLe a b <->
  if decide (router.Path a = router.Path b)
  then String.le (router.Method a) (router.Method b)
  else String.le (router.Path a) (router.Path b).
Proof.
  unfold routeLe, router.routeLess.
  destruct (decide (router.Path a = router.Path b)) as [E|E].
  - rewrite E, String.eqb_refl. apply ltb_false_le.
  - assert (E' : router.Path b <> router.Path a) by congruence.
    apply eqb_false in E'. rewrite E'. apply ltb_false_le.
Qed.

#[global] Instance routeLe_total : Total routeLe.
Proof.
  intros a b. rewrite !routeLe_spec.
  destruct (decide (router.Path a = router.Path b)) as [E|E].
  - rewrite decide_True by done. apply (total String.le).
  - rewrite decide_False by congruence. apply (total String.le).
Qed.

#[global] Instance routeLe_trans : Transitive routeLe.
Proof.
  intros a b c. rewrite !routeLe_spec.
  destruct (decide (router.Path a = router.Path b)) as [E1|E1];
    destruct (decide (router.Path b = router.Path c)) as [E2|E2];
    intros H1 H2.
  - rewrite decide_True by congruence. by etrans.
  - rewrite decide_False by congruence. by rewrite E1.
  - rewrite decide_False by congruence. by rewrite <- E2.
  - destruct (decide (router.Path a = router.Path c)) as [E3|E3].
    + exfalso. apply E1. rewrite E3 in H1.
      rewrite E3. by apply (anti_symm String.le).
    + by etrans.
Qed.

#[global] Instance routeLe_antisym : AntiSymm (=) routeLe.
Proof.
  intros [ma pa] [mb pb]. rewrite !routeLe_spec. cbn.
  destruct (decide (pa = pb)) as [->|E].
  - rewrite decide_True by done. intros H1 H2. f_equal.
    by apply (anti_symm String.le).
  - rewrite decide_False by congruence. intros H1 H2. exfalso. apply E.
    by apply (anti_symm String.le).
Qed.

(** X13: the routes that [PrintRoutes] lists are the extracted routes,
    each as often as it was extracted, in increasing order of path and then
    method; any sorting algorithm yields this same list, and two routers
    with the same routes in a different registration order get the same
    listing. *)
Theorem listing_sorted (r : Router) :
  let listed := sortRoutes (fst (router.extractRoutes r)) in
  listed ≡ₚ fst (router.extractRoutes r) /\
  StronglySorted routeLe listed /\
  (forall l, l ≡ₚ fst (router.extractRoutes r) -> StronglySorted routeLe l ->
             l = listed) /\
  (forall r', extractRoutes r' ≡ₚ extractRoutes r ->
              printedRoutes r' = printedRoutes r).
Proof.
  cbn zeta. unfold sortRoutes. split; [apply merge_sort_Permutation|].
  split; [apply StronglySorted_merge_sort; apply _|]. split.
  - intros l Hperm Hsorted.
    apply (StronglySorted_unique routeLe); [done| |].
    + apply StronglySorted_merge_sort; apply _.
    + by rewrite merge_sort_Permutation.
  - intros r' Hperm. unfold printedRoutes, sortRoutes. f_equal.
    apply (StronglySorted_unique routeLe);
      try (apply StronglySorted_merge_sort; apply _).
    rewrite !merge_sort_Permutation, !router_extractRoutes_spec. cbn [fst].
    by apply Permutation_map.
Qed.

(** ** The references of the serialized document *)

Lemma jsonRefs_members_app (l1 l2 : list (string * JSON)) :
  jsonRefs (JObject (l1 ++ l2)) =
  (jsonRefs (JObject l1) ++ jsonRefs (JObject l2))%list.
Proof. cbn [jsonRefs]. apply flat_map_app. Qed.

Lemma jsonRefs_member_object (k : string) (j : JSON) :
  isObject j -> jsonRefs (JObject [(k, j)]) = jsonRefs j.
Proof.
  intros H. destruct j; try destruct H. cbn [jsonRefs flat_map fst snd app].
  by rewrite app_nil_r.
Qed.

Lemma jsonRefs_omitemptyString (name s : string) :
  name <> "$ref" -> jsonRefs (JObject (omitemptyString name s)) = [].
Proof.
  intros H. apply eqb_false in H. unfold omitemptyString.
  destruct (s =? ""); [reflexivity|]. cbn. by rewrite H.
Qed.

Lemma jsonRefs_ref (s : string) :
  jsonRefs (JObject (omitemptyString "$ref" s)) =
  if s =? "" then [] else [s].
Proof. unfold omitemptyString. by destruct (s =? ""). Qed.

Lemma jsonRefs_omitemptyValue (name : string) (v : Value) :
  name <> "$ref" -> jsonRefs (JObject (omitemptyValue name v)) = [].
Proof.
  intros H. apply eqb_false in H. destruct v; cbn; by rewrite ?H.
Qed.

Lemma jsonRefs_strings (l : list string) :
  flat_map jsonRefs (map JString l) = [].
Proof. induction l as [|x l IH]; [reflexivity|]. exact IH. Qed.

Lemma jsonRefs_omitemptyStrings (name : string) (l : list string) :
  jsonRefs (JObject (omitemptyStrings name l)) = [].
Proof.
  destruct l as [|x l]; [reflexivity|]. unfold omitemptyStrings.
  cbn [jsonRefs flat_map fst snd app]. by rewrite jsonRefs_strings.
Qed.

Lemma elem_of_map_fold_app {V B : Type} (f : V -> list B) (m : gmap string V)
    (k : string) (v : V) (x : B) :
  m !! k = Some v -> x ∈ f v ->
  x ∈ map_fold (fun _ v acc => f v ++ acc)%list [] m.
Proof.
  revert k v.
  apply (map_fold_weak_ind
           (fun acc m => forall k v, m !! k = Some v -> x ∈ f v -> x ∈ acc)).
  - intros k v H. by rewrite lookup_empty in H.
  - intros i y m' acc Hi IH k v Hk Hx. apply elem_of_app.
    destruct (decide (i = k)) as [->|Hne].
    + rewrite lookup_insert_eq in Hk. injection Hk as ->. by left.
    + rewrite lookup_insert_ne in Hk by done. right. by apply (IH k v).
Qed.

Section json_refs.
Context (MapKeys : gset string -> list string).

(** The references below a map are those below its values, when the
    values are written as objects. *)
Lemma jsonRefs_mapJSON {V : Type} (enc : V -> JSON) (m : gmap string V)
    (ref : string) :
  (forall v, isObject (enc v)) ->
  ref ∈ jsonRefs (mapJSON MapKeys enc m) ->
  exists k v, m !! k = Some v /\ ref ∈ jsonRefs (enc v).
Proof using Type.
  intros Hobj. unfold mapJSON. cbv zeta. cbn [jsonRefs].
  induction (sortedKeys MapKeys (dom m)) as [|k ks IH]; cbn [omap list_omap].
  - cbn. intros H. by apply elem_of_nil in H.
  - rewrite lookup_fmap.
    destruct (m !! k) as [v|] eqn:E; cbn [fmap option_fmap option_map];
      [|exact IH].
    cbn [flat_map fst snd]. rewrite !elem_of_app. intros [[H|H]|H].
    + specialize (Hobj v). destruct (enc v); try destruct Hobj.
      by apply elem_of_nil in H.
    + by exists k, v.
    + by apply IH.
Qed.

Lemma jsonRefs_omitemptyMap {V : Type} (name : string) (enc : V -> JSON)
    (m : gmap string V) (ref : string) :
  (forall v, isObject (enc v)) ->
  ref ∈ jsonRefs (JObject (omitemptyMap MapKeys name enc m)) ->
  exists k v, m !! k = Some v /\ ref ∈ jsonRefs (enc v).
Proof using Type.
  intros Hobj. unfold omitemptyMap.
  destruct (size m =? 0)%nat.
  - cbn. intros H. by apply elem_of_nil in H.
  - rewrite jsonRefs_member_object by done. by apply jsonRefs_mapJSON.
Qed.

Lemma schemaJSON_isObject (s : Schema) : isObject (schemaJSON MapKeys s).
Proof using Type. by destruct s. Qed.

Lemma elem_of_schemaRefs_property (s p : Schema) (k ref : string) :
  Properties s !! k = Some p -> ref ∈ schemaRefs p -> ref ∈ schemaRefs s.
Proof using Type.
  intros Hp Href. destruct s as [ty f props req items r ap ex].
  cbn [Properties] in Hp. cbn [schemaRefs Properties Ref Items].
  apply elem_of_app. right. apply elem_of_app. left.
  by apply (elem_of_map_fold_app schemaRefs props k p).
Qed.

(** Every [$ref] member of a serialized schema is a reference of the
    schema. *)
Lemma jsonRefs_schemaJSON (s : Schema) (ref : string) :
  ref ∈ jsonRefs (schemaJSON MapKeys s) -> ref ∈ schemaRefs s.
Proof using Type.
  revert ref. induction s as [s IHprops IHitems] using Schema_nested_ind.
  intros ref. destruct s as [ty f props req items r ap ex].
  cbn [schemaJSON Type__ Format Properties Required Items Ref
       AdditionalProperties Example] in *.
  rewrite !jsonRefs_members_app.
  rewrite !jsonRefs_omitemptyString, jsonRefs_omitemptyStrings,
    !jsonRefs_omitemptyValue, jsonRefs_ref by discriminate.
  cbn [app]. rewrite !app_nil_r, !elem_of_app. intros [H|[H|H]].
  - apply jsonRefs_omitemptyMap in H as (k & p & Hp & H);
      [|apply schemaJSON_isObject].
    apply (elem_of_schemaRefs_property
             (mkSchema ty f props req items r ap ex) p k); [done|].
    by apply (IHprops k p).
  - destruct items as [i|]; [|by apply elem_of_nil in H].
    rewrite jsonRefs_member_object in H by apply schemaJSON_isObject.
    cbn [schemaRefs Items]. rewrite !elem_of_app. right. right.
    by apply IHitems.
  - cbn [schemaRefs Ref]. rewrite !elem_of_app. by left.
Qed.

Lemma jsonRefs_content (content : gmap string MediaType) (ref : string) :
  ref ∈ jsonRefs (mapJSON MapKeys (mediaTypeJSON MapKeys) content) ->
  ref ∈ contentRefs content.
Proof using Type.
  intros H. apply jsonRefs_mapJSON in H as (k & mt & Hk & H); [|done].
  unfold mediaTypeJSON in H.
  rewrite jsonRefs_member_object in H by apply schemaJSON_isObject.
  apply jsonRefs_schemaJSON in H. unfold contentRefs.
  by apply (elem_of_map_fold_app (fun mt => schemaRefs (mtSchema mt))
              content k mt).
Qed.

Lemma jsonRefs_omitemptyBool (name : string) (b : bool) :
  jsonRefs (JObject (omitemptyBool name b)) = [].
Proof using Type. by destruct b. Qed.

Lemma jsonRefs_string_member (name s : string) :
  name <> "$ref" -> jsonRefs (JObject [(name, JString s)]) = [].
Proof using Type. intros H. apply eqb_false in H. cbn. by rewrite H. Qed.

Lemma jsonRefs_responseJSON (r : Response) (ref : string) :
  ref ∈ jsonRefs (responseJSON MapKeys r) -> ref ∈ contentRefs (respContent r).
Proof using Type.
  unfold responseJSON, omitemptyMap. rewrite jsonRefs_members_app.
  rewrite jsonRefs_string_member by discriminate. cbn [app].
  destruct (size (respContent r) =? 0)%nat.
  - cbn. intros H. by apply elem_of_nil in H.
  - rewrite jsonRefs_member_object by done. apply jsonRefs_content.
Qed.

Lemma jsonRefs_requestBodyJSON (body : RequestBody) (ref : string) :
  ref ∈ jsonRefs (requestBodyJSON MapKeys body) ->
  ref ∈ contentRefs (rbContent body).
Proof using Type.
  unfold requestBodyJSON. rewrite !jsonRefs_members_app.
  rewrite jsonRefs_omitemptyString, jsonRefs_omitemptyBool by discriminate.
  cbn [app]. rewrite jsonRefs_member_object by done. apply jsonRefs_content.
Qed.

Lemma jsonRefs_parameterJSON (p : Parameter_) (ref : string) :
  ref ∈ jsonRefs (parameterJSON MapKeys p) -> ref ∈ schemaRefs (pSchema p).
Proof using Type.
  unfold parameterJSON. rewrite !jsonRefs_members_app.
  change [("name", JString (pName p)); ("in", JString (pIn p))]
    with ([("name", JString (pName p))] ++ [("in", JString (pIn p))])%list.
  rewrite jsonRefs_members_app, !jsonRefs_string_member,
    jsonRefs_omitemptyString, jsonRefs_omitemptyBool by discriminate.
  cbn [app]. rewrite jsonRefs_member_object by apply schemaJSON_isObject.
  apply jsonRefs_schemaJSON.
Qed.

Lemma jsonRefs_operationJSON (op : Operation) (ref : string) :
  ref ∈ jsonRefs (operationJSON MapKeys op) -> ref ∈ operationRefs op.
Proof using Type.
  unfold operationJSON, operationRefs. rewrite !jsonRefs_members_app.
  rewrite jsonRefs_omitemptyStrings, jsonRefs_string_member,
    jsonRefs_omitemptyString by discriminate.
  cbn [app]. rewrite !elem_of_app. intros [H|[H|H]].
  - left. destruct (opParameters op) as [|p ps] eqn:E;
      [by apply elem_of_nil in H|].
    cbn [jsonRefs flat_map fst snd app] in H. rewrite app_nil_r in H.
    apply list_elem_of_In, in_flat_map in H as (j & Hj & H).
    apply in_map_iff in Hj as (q & <- & Hq).
    apply list_elem_of_In, in_flat_map. exists q. split; [done|].
    apply list_elem_of_In, jsonRefs_parameterJSON, list_elem_of_In. done.
  - right. left. destruct (opRequestBody op) as [body|];
      [|by apply elem_of_nil in H].
    rewrite jsonRefs_member_object in H by done.
    by apply jsonRefs_requestBodyJSON.
  - right. right. rewrite jsonRefs_member_object in H by done.
    apply jsonRefs_mapJSON in H as (k & r & Hk & H); [|done].
    apply jsonRefs_responseJSON in H.
    by apply (elem_of_map_fold_app (fun r => contentRefs (respContent r))
                (opResponses op) k r).
Qed.

Lemma jsonRefs_omitemptyOperation (name : string) (slot : option Operation)
    (ref : string) :
  ref ∈ jsonRefs (JObject (omitemptyOperation MapKeys name slot)) ->
  ref ∈ slotRefs slot.
Proof using Type.
  destruct slot as [op|]; cbn [omitemptyOperation slotRefs].
  - rewrite jsonRefs_member_object by done. apply jsonRefs_operationJSON.
  - cbn. done.
Qed.

Lemma jsonRefs_pathItemJSON (item : PathItem) (ref : string) :
  ref ∈ jsonRefs (pathItemJSON MapKeys item) -> ref ∈ pathItemRefs item.
Proof using Type.
  unfold pathItemJSON, pathItemRefs. rewrite !jsonRefs_members_app.
  rewrite !elem_of_app.
  intros [H|[H|[H|H]]]; apply jsonRefs_omitemptyOperation in H; tauto.
Qed.

(** Every [$ref] member of the serialized document is a reference of the
    document. *)
Lemma jsonRefs_specJSON (spec : SwaggerSpec) (ref : string) :
  ref ∈ jsonRefs (specJSON MapKeys spec) -> ref ∈ specRefs spec.
Proof using Type.
  unfold specJSON, specRefs.
  change (jsonRefs (JObject [?a; ?b; ?c; ?d; ?e]))
    with (jsonRefs (JObject ([a] ++ [b] ++ [c] ++ [d] ++ [e])%list)).
  rewrite !jsonRefs_members_app.
  rewrite jsonRefs_string_member by discriminate.
  rewrite (jsonRefs_member_object "info") by done.
  assert (Hinfo : jsonRefs (infoJSON (Info spec)) = []) by reflexivity.
  assert (Hsrv : jsonRefs (JObject [("servers",
                   JArray (map serverJSON (Servers spec)))]) = []).
  { cbn [jsonRefs flat_map fst snd app]. rewrite app_nil_r.
    induction (Servers spec) as [|srv l IH]; [reflexivity|].
    cbn [map flat_map]. rewrite IH. reflexivity. }
  rewrite Hinfo, Hsrv. cbn [app].
  rewrite !jsonRefs_member_object by done.
  rewrite !elem_of_app. intros [H|H].
  - left. apply jsonRefs_mapJSON in H as (k & item & Hk & H); [|done].
    apply jsonRefs_pathItemJSON in H.
    by apply (elem_of_map_fold_app pathItemRefs (Paths spec) k item).
  - right. apply jsonRefs_mapJSON in H as (k & s & Hk & H);
      [|apply schemaJSON_isObject].
    apply jsonRefs_schemaJSON in H.
    by apply (elem_of_map_fold_app schemaRefs (Schemas (Components_ spec)) k s).
Qed.

End json_refs.

Lemma validOrder_elements : validOrder elements.
Proof. intros keys. reflexivity. Qed.

(** The references of a generated document are the two envelope
    references. *)
Lemma specRefs_generated (r : Router) (info : SwaggerInfo) (ref : string) :
  ref ∈ specRefs
          {| OpenAPI := "3.0.0"; Info := info;
             Servers := [ {| srvURL := "http://" ++ Host info;
                             srvDescription := "Development server" |} ];
             Paths := fold_left addRoute (extractRoutes r) ∅;
             Components_ := {| Schemas := schemas0 |} |} ->
  envelopeRef ref.
Proof.
  unfold specRefs. cbn [Paths Components_ Schemas].
  rewrite schemas0_no_refs, app_nil_r. revert ref. apply Forall_forall.
  apply Forall_map_fold_app, envelope_generatePaths, map_Forall_empty.
Qed.

(** X14: in the serialized form of every generated document, whatever the
    order in which map keys are yielded, each member named [$ref] holds one
    of the two envelope references, and the schema it names is a member of
    the [components.schemas] object of that same serialized document. *)
Theorem serialized_refs_resolve (MapKeys : gset string -> list string)
    (r : Router) (info : SwaggerInfo) :
  validOrder MapKeys ->
  exists spec,
    GenerateSwagger r info = Ok spec /\
    forall ref, ref ∈ jsonRefs (specJSON MapKeys spec) ->
                envelopeRef ref /\
                is_Some (jsonResolve (specJSON MapKeys spec) ref).
Proof.
  intros Hvalid. eexists. split; [apply GenerateSwagger_ok|].
  intros ref Href. apply jsonRefs_specJSON in Href.
  apply specRefs_generated in Href. split; [exact Href|].
  unfold jsonResolve, specJSON. cbn [Components_ Schemas].
  rewrite (mapJSON_order_irrelevant MapKeys elements Hvalid
             validOrder_elements (schemaJSON MapKeys) (schemaJSON elements)
             schemas0)
    by (intros; apply (schemaJSON_order_irrelevant MapKeys elements Hvalid
                         validOrder_elements)).
  destruct Href as [-> | ->]; vm_compute; by eexists.
Qed.

(** ** Key order of the serialized maps *)

(** The member names of a serialized map are its keys, sorted. *)
Lemma mapJSON_keys {V : Type} (MapKeys : gset string -> list string)
    (enc : V -> JSON) (m : gmap string V) :
  validOrder MapKeys ->
  exists members,
    mapJSON MapKeys enc m = JObject members /\
    members.*1 = sortedKeys MapKeys (dom m) /\
    (forall k j, (k, j) ∈ members <-> enc <$> m !! k = Some j).
Proof.
  intros Hvalid. unfold mapJSON. cbv zeta. eexists. split; [reflexivity|].
  assert (Hin : forall k, k ∈ sortedKeys MapKeys (dom m) <-> is_Some (m !! k)).
  { intros k. unfold sortedKeys.
    rewrite merge_sort_Permutation, (Hvalid (dom m)), elem_of_elements.
    apply elem_of_dom. }
  split.
  - assert (Hall : Forall (fun k => is_Some (m !! k))
                     (sortedKeys MapKeys (dom m))).
    { apply Forall_forall. intros k. apply Hin. }
    clear Hin. induction Hall as [|k ks [v Hk] _ IH]; [reflexivity|].
    cbn [omap list_omap]. rewrite lookup_fmap, Hk.
    cbn [fmap option_fmap option_map]. rewrite fmap_cons. cbn [fst].
    f_equal. exact IH.
  - intros k j. rewrite list_elem_of_omap. split.
    + intros (k' & _ & H). cbn beta in H. rewrite lookup_fmap in H.
      destruct (m !! k') as [v|] eqn:E; cbn in H; [|discriminate].
      injection H as <- <-. by rewrite E.
    + intros H. exists k. cbn beta. rewrite lookup_fmap.
      destruct (m !! k) as [v|] eqn:E; cbn in H; [|discriminate].
      injection H as <-. split; [|reflexivity]. apply Hin. by rewrite E.
Qed.

Lemma sortedKeys_sorted (MapKeys : gset string -> list string)
    (keys : gset string) :
  validOrder MapKeys ->
  StronglySorted String.le (sortedKeys MapKeys keys) /\
  NoDup (sortedKeys MapKeys keys) /\
  (forall k, k ∈ sortedKeys MapKeys keys <-> k ∈ keys).
Proof.
  intros Hvalid. unfold sortedKeys. split; [|split].
  - apply StronglySorted_merge_sort; apply _.
  - rewrite merge_sort_Permutation, (Hvalid keys). apply NoDup_elements.
  - intros k. rewrite merge_sort_Permutation, (Hvalid keys).
    apply elem_of_elements.
Qed.

(** X15: in the serialized document, the [paths] object has one member
    per extracted path, each once, in increasing byte order of the path,
    whatever the order in which the router yields its routes and the
    runtime yields the map keys. *)
Theorem serialized_paths_sorted (MapKeys : gset string -> list string)
    (r : Router) (info : SwaggerInfo) :
  validOrder MapKeys ->
  exists spec members,
    GenerateSwagger r info = Ok spec /\
    jsonMember "paths" (specJSON MapKeys spec) = Some (JObject members) /\
    StronglySorted String.le (members.*1) /\
    NoDup (members.*1) /\
    (forall path, path ∈ members.*1 <-> path ∈ Path <$> extractRoutes r).
Proof.
  intros Hvalid.
  destruct (mapJSON_keys MapKeys (pathItemJSON MapKeys)
              (fold_left addRoute (extractRoutes r) ∅) Hvalid)
    as (members & Hjson & Hkeys & _).
  eexists _, members. split; [apply GenerateSwagger_ok|].
  unfold specJSON. cbn [Paths]. rewrite Hjson. split; [reflexivity|].
  rewrite Hkeys.
  destruct (sortedKeys_sorted MapKeys
              (dom (fold_left addRoute (extractRoutes r) ∅)) Hvalid)
    as (Hsorted & Hnodup & Hin).
  split; [exact Hsorted|]. split; [exact Hnodup|].
  intros path. rewrite Hin, dom_fold_addRoute, dom_empty_L.
  rewrite (right_id_L ∅ (∪)). apply elem_of_list_to_set.
Qed.

(** ** Go's [strings], checked against its documentation *)

Lemma HasPrefix_app (s prefix : string) :
  strings.HasPrefix s prefix = true <-> exists rest, s = prefix ++ rest.
Proof.
  unfold strings.HasPrefix. revert s.
  induction prefix as [|a p IH]; intros s.
  - split; [intros _; by exists s | by destruct s].
  - destruct s as [|b s]; cbn.
    + split; [done | intros [rest H]; discriminate H].
    + destruct (Ascii.ascii_dec a b) as [->|Hne].
      * rewrite IH. split; intros [rest H]; exists rest.
        -- by rewrite H.
        -- by injection H.
      * split; [done|]. intros [rest H]. injection H as ? ?. congruence.
Qed.

(** [strings.Contains]: the substring occurs somewhere in the string. *)
Lemma Contains_app (s substr : string) :
  strings.Contains s substr = true <->
  exists before after, s = before ++ substr ++ after.
Proof.
  induction s as [|a s IH]; cbn [strings.Contains].
  - rewrite orb_false_r, HasPrefix_app. split.
    + intros [rest H]. by exists "", rest.
    + intros (before & after & H). destruct before; [by exists after|].
      discriminate H.
  - rewrite orb_true_iff, HasPrefix_app, IH. split.
    + intros [[rest H]|(before & after & H)].
      * by exists "", rest.
      * exists (String a before), after. by rewrite H.
    + intros (before & after & H). destruct before as [|b before].
      * left. by exists after.
      * right. injection H as -> ->. by exists before, after.
Qed.

Lemma TrimPrefix_app (prefix s : string) :
  strings.TrimPrefix (prefix ++ s) prefix = s.
Proof.
  unfold strings.TrimPrefix.
  assert (H : strings.HasPrefix (prefix ++ s) prefix = true).
  { apply HasPrefix_app. by exists s. }
  rewrite H. clear H. induction prefix as [|a p IH].
  - change ("" ++ s) with s. cbn [String.length]. rewrite Nat.sub_0_r.
    induction s as [|b s IHs]; [reflexivity|].
    change (String.substring 0 (String.length (String b s)) (String b s))
      with (String b (String.substring 0 (String.length s) s)).
    by rewrite IHs.
  - exact IH.
Qed.

(** ** Scaffolding *)

Section Scaffolding_facts.
Context (Template : Type) (Parse : string -> result Template)
        (Execute : Template -> string -> string -> string * option error)
        (openError : string -> error) (Create : string -> option error)
        (target : string -> string).

Local Abbreviation parseFiles :=
  (ParseFiles Template Parse openError target).
Local Abbreviation createFile :=
  (createFileFromTemplate Template Parse Execute openError Create target).
Local Abbreviation makeModel :=
  (MakeModel Template Parse Execute openError Create target).

(** The cases of [createFileFromTemplate]. *)
Lemma createFile_cases (templatePath outputPath modelName : string)
    (w w' : World) (e : Exit) :
  createFile templatePath outputPath modelName w = (w', e) ->
  (w' = w /\ exists err, e = Panicked err) \/
  (is_Some (files w !! target outputPath) /\
   w' = print (skipped outputPath) w /\ e = Returned /\
   exists tpl, parseFiles templatePath w = Val tpl) \/
  (files w !! target outputPath = None /\
   (exists text, w' = writeFile (target outputPath) text w) /\
   exists tpl, parseFiles templatePath w = Val tpl).
Proof using Type.
  unfold createFileFromTemplate.
  destruct (parseFiles templatePath w) as [tpl|err].
  2: { intros [= <- <-]. left. eauto. }
  destruct (files w !! target outputPath) as [c|] eqn:Eout.
  { intros [= <- <-]. right. left. eauto 10. }
  destruct (Create outputPath) as [err|].
  { intros [= <- <-]. left. eauto. }
  destruct (Execute tpl modelName (strings.ToLower modelName ++ "s"))
    as [text [err|]]; intros [= <- <-]; right; right; eauto 10.
Qed.

Lemma createFile_keeps (templatePath outputPath modelName : string)
    (w w' : World) (e : Exit) :
  createFile templatePath outputPath modelName w = (w', e) ->
  (forall p c, files w !! p = Some c -> files w' !! p = Some c) /\
  (forall p, p <> target outputPath -> files w' !! p = files w !! p).
Proof using Type.
  intros H. apply createFile_cases in H
    as [[-> _]|[(_ & -> & _)|(Hnone & [text ->] & _)]]; try done.
  cbn [writeFile files]. split.
  - intros p c Hp. rewrite lookup_insert_ne; [done|]. congruence.
  - intros p Hp. by rewrite lookup_insert_ne.
Qed.

Lemma createFile_returned (templatePath outputPath modelName : string)
    (w w' : World) :
  createFile templatePath outputPath modelName w = (w', Returned) ->
  is_Some (files w' !! target outputPath) /\
  exists tpl, parseFiles templatePath w = Val tpl.
Proof using Type.
  intros H. apply createFile_cases in H
    as [[_ [err [=]]]|[(Hsome & -> & _ & Htpl)|(_ & [text ->] & Htpl)]].
  - done.
  - split; [|done]. cbn [writeFile files]. rewrite lookup_insert_eq. by eexists.
Qed.

Lemma ParseFiles_keeps (path : string) (w w' : World) (tpl : Template) :
  (forall p c, files w !! p = Some c -> files w' !! p = Some c) ->
  parseFiles path w = Val tpl ->
  parseFiles path w' = Val tpl.
Proof using Type.
  unfold ParseFiles. intros Hkeep.
  destruct (files w !! target path) as [text|] eqn:E; [|discriminate].
  by rewrite (Hkeep _ _ E).
Qed.

Lemma createFile_skip (templatePath outputPath modelName : string)
    (w : World) (tpl : Template) :
  parseFiles templatePath w = Val tpl ->
  is_Some (files w !! target outputPath) ->
  createFile templatePath outputPath modelName w =
  (print (skipped outputPath) w, Returned).
Proof using Type.
  intros Htpl [c Hc]. unfold createFileFromTemplate. by rewrite Htpl, Hc.
Qed.

(** X16: [createFileFromTemplate] never changes a file that exists,
    however it ends, and the only file it can create is the one that its
    output path names once links are followed; when that file exists and
    the call returns, it has only printed that the file was skipped. *)
Theorem scaffold_never_overwrites (templatePath outputPath modelName : string)
    (w w' : World) (e : Exit) :
  createFile templatePath outputPath modelName w = (w', e) ->
  (forall p c, files w !! p = Some c -> files w' !! p = Some c) /\
  (forall p, p <> target outputPath -> files w' !! p = files w !! p) /\
  (is_Some (files w !! target outputPath) -> e = Returned ->
   w' = print (skipped outputPath) w).
Proof using Type.
  intros H. destruct (createFile_keeps _ _ _ _ _ _ H) as [H1 H2].
  split; [exact H1|]. split; [exact H2|]. intros [c Hc] ->.
  apply createFile_cases in H
    as [[_ [err [=]]]|[(_ & -> & _)|(Hnone & _)]]; [done|congruence].
Qed.

(** X17: once [MakeModel] has returned, running it again for the same
    model changes no file: it prints that both files were skipped, then the
    success line, and returns. *)
Theorem MakeModel_twice (modelName : string) (w w1 : World) :
  makeModel modelName w = (w1, Returned) ->
  exists w2,
    makeModel modelName w1 = (w2, Returned) /\
    files w2 = files w1 /\
    stdout w2 =
    (stdout w1 ++
     [ skipped ("app/models/" ++ modelName ++ ".go")%string;
       skipped ("app/controllers/" ++ modelName ++ "Controller.go")%string;
       filesCreated ])%list.
Proof using Type.
  unfold MakeModel.
  destruct (createFile "internal/templates/model.tpl"
              ("app/models/" ++ modelName ++ ".go") modelName w)
    as [wa [|err]] eqn:Ea; [|discriminate].
  destruct (createFile "internal/templates/controller.tpl"
              ("app/controllers/" ++ modelName ++ "Controller.go")
              modelName wa)
    as [wb [|err]] eqn:Eb; [|discriminate].
  intros [= <-].
  destruct (createFile_returned _ _ _ _ _ Ea) as [Houta [tpla Htpla]].
  destruct (createFile_returned _ _ _ _ _ Eb) as [Houtb [tplb Htplb]].
  destruct (createFile_keeps _ _ _ _ _ _ Ea) as [Hka _].
  destruct (createFile_keeps _ _ _ _ _ _ Eb) as [Hkb _].
  set (w1 := print filesCreated wb).
  assert (Hfiles : files w1 = files wb) by reflexivity.
  rewrite (createFile_skip _ _ _ w1 tpla).
  - rewrite (createFile_skip _ _ _ _ tplb).
    + eexists. split; [reflexivity|]. split; [reflexivity|].
      subst w1. unfold filesCreated. cbn [print stdout].
      rewrite <- !app_assoc. reflexivity.
    + apply (ParseFiles_keeps _ wa); [|done]. intros p c Hp. cbn [print files].
      rewrite Hfiles. by apply Hkb.
    + cbn [print files]. by rewrite Hfiles.
  - apply (ParseFiles_keeps _ w); [|done]. intros p c Hp.
    rewrite Hfiles. by apply Hkb, Hka.
  - rewrite Hfiles. destruct Houta as [c Hc]. exists c. by apply Hkb.
Qed.

End Scaffolding_facts.

End Properties.

(** * The properties at concrete inputs

    The runs below are over ASCII strings, on which [strings.ToLower] does
    not consult the case tables; [noTables] stands for them. *)

#[local] Existing Instance noTables.

(** ** Spec Assembler *)


(** ** Schema Deriver *)

(** C2, as stated, fails: the 8-bit unsigned kind is not the 64-bit one, and
    its schema carries the format [int64] all the same. *)
Lemma C2_uint8_has_format_int64 :
  exists s, generateFieldSchema (scalar Uint8 "uint8") = Ok s /\
            Type__ s = "integer" /\ Format s = "int64" /\
            tKind (scalar Uint8 "uint8") <> Uint64.
Proof.
  exists (SchemaOfTypeFormat "integer" "int64").
  repeat split; discriminate.
Qed.

Lemma C2_integer_kinds_witness :
  exists s, generateFieldSchema (scalar Uint16 "uint16") = Ok s /\
            Type__ s = "integer" /\
            (Format s = "int64" <->
             is_unsigned_int (tKind (scalar Uint16 "uint16")) = true) /\
            (Format s = "" <->
             is_signed_int (tKind (scalar Uint16 "uint16")) = true).
Proof. apply (C2_integer_kinds (scalar Uint16 "uint16")). reflexivity. Defined.

Lemma model_schema_fields_witness :
  Type__ UserSchema = "object" /\
  dom (Properties UserSchema) =
  list_to_set
    (wireName <$>
     List.filter included
       [ mkStructField "ID" (scalar Uint "uint") "id";
         mkStructField "Name" (scalar String_ "string") "name";
         mkStructField "Email" (scalar String_ "string") "email";
         mkStructField "CreatedAt" time_Time "created_at";
         mkStructField "UpdatedAt" time_Time "updated_at" ]) /\
  Required UserSchema =
  wireName <$>
  List.filter requiredField
    [ mkStructField "ID" (scalar Uint "uint") "id";
      mkStructField "Name" (scalar String_ "string") "name";
      mkStructField "Email" (scalar String_ "string") "email";
      mkStructField "CreatedAt" time_Time "created_at";
      mkStructField "UpdatedAt" time_Time "updated_at" ].
Proof.
  apply (model_schema_fields models_User).
  - discriminate.
  - reflexivity.
  - vm_compute. reflexivity.
Defined.

Lemma schema_derivation_total_witness :
  (exists s, generateFieldSchema models_User = Ok s /\ Type__ s ∈ jsonTypes) /\
  (tKind models_User = Struct ->
   exists s, generateModelSchema models_User = Ok s /\ Type__ s = "object").
Proof. apply (schema_derivation_total models_User). reflexivity. Defined.

Lemma model_schema_pointer_witness :
  (tKind models_User = Struct ->
   generateModelSchema (mkType Pointer "*models.User" (Some models_User) None) =
   generateModelSchema models_User) /\
  (tFields models_User = None ->
   generateModelSchema (mkType Pointer "*models.User" (Some models_User) None) =
   Panic).
Proof.
  apply (model_schema_pointer
           (mkType Pointer "*models.User" (Some models_User) None) models_User);
    reflexivity.
Defined.

(** ** Example Synthesizer *)

(** C3, as stated, fails: [age] is not a special name and [int32] is an
    integer kind, yet no example is produced. *)
Lemma C3_int32_has_no_example :
  (strings.ToLower "age" ∉ specialNames) /\
  is_signed_int (tKind (scalar Int32 "int32")) = true /\
  generateExample "age" (scalar Int32 "int32") = VNil.
Proof.
  split; [|split; reflexivity].
  change (strings.ToLower "age") with "age". unfold specialNames.
  rewrite !not_elem_of_cons. repeat split; try discriminate.
  apply not_elem_of_nil.
Qed.

Lemma C3_fallback_by_kind_witness :
  (tKind (scalar String_ "string") = String_ ->
   generateExample "Title" (scalar String_ "string") = VString "example string") /\
  (tKind (scalar String_ "string") ∈ [Int; Int64; Uint; Uint64] ->
   generateExample "Title" (scalar String_ "string") = VInt 1) /\
  (tKind (scalar String_ "string") = Bool ->
   generateExample "Title" (scalar String_ "string") = VBool true) /\
  (tKind (scalar String_ "string") ∉ [String_; Int; Int64; Uint; Uint64; Bool] ->
   generateExample "Title" (scalar String_ "string") = VNil).
Proof.
  apply (C3_fallback_by_kind "Title" (scalar String_ "string")).
  change (strings.ToLower "Title") with "title". unfold specialNames.
  rewrite !not_elem_of_cons. repeat split; try discriminate.
  apply not_elem_of_nil.
Defined.

(** ** Route Extractor *)

Lemma C9_malformed_route_skipped_witness :
  let t := apiPrefixRoute [methodRoute "GET" "/api/users";
                           methodRoute "POST" "/api/users"] in
  let router := ([healthRoute] ++ t :: [methodRoute "GET" "/swagger.json"])%list in
  let others :=
    flat_map walkOrder
      ([healthRoute] ++ subroutes t ++ [methodRoute "GET" "/swagger.json"])%list in
  Walk extractRoutes_walkFn router [] = (extractRoutes router, None) /\
  extractRoutes router = flat_map routeRecords others /\
  (forall t' path methods method,
     t' ∈ others ->
     GetPathTemplate t' = Val path -> GetMethods t' = Val methods ->
     method ∈ methods ->
     {| Method := method; Path := path;
        HandlerName := extractHandlerName path method;
        Tags := extractTags path |} ∈ extractRoutes router) /\
  (forall r,
     r ∈ extractRoutes router ->
     exists t' methods,
       t' ∈ others /\ GetPathTemplate t' = Val (Path r) /\
       GetMethods t' = Val methods /\ Method r ∈ methods) /\
  (forall info,
     exists spec,
       GenerateSwagger router info = Ok spec /\
       Paths spec = fold_left addRoute (flat_map routeRecords others) ∅).
Proof.
  apply (C9_malformed_route_skipped [healthRoute]
           [methodRoute "GET" "/swagger.json"]
           (apiPrefixRoute [methodRoute "GET" "/api/users";
                            methodRoute "POST" "/api/users"])).
  right. exists "mux: route doesn't have methods". reflexivity.
Defined.

(** ** Paths *)

(** C7, as stated, fails: [PathItem] has no slot for PATCH, so that of two
    PATCH records with one path neither has its operation stored; the path
    has an entry without operations. *)
Lemma C7_patch_duplicate_stores_nothing :
  exists spec',
    generatePaths (emptySpec info0)
      [recordOf "PATCH" "/api/users/{id}";
       recordOf "PATCH" "/api/users/{id}"] = Ok spec' /\
    Paths spec' !! "/api/users/{id}" = Some PathItem0 /\
    lookupOperation (Paths spec') "/api/users/{id}" "PATCH" = None /\
    lookupOperation (Paths spec') "/api/users/{id}" "PATCH" <>
    Some (generateOperation (recordOf "PATCH" "/api/users/{id}")).
Proof.
  eexists. split; [reflexivity|].
  assert (Hnone :
    lookupOperation
      (Paths (withPaths (emptySpec info0)
                (fold_left addRoute
                   [recordOf "PATCH" "/api/users/{id}";
                    recordOf "PATCH" "/api/users/{id}"]
                   (Paths (emptySpec info0)))))
      "/api/users/{id}" "PATCH" = None).
  { vm_compute. reflexivity. }
  split; [vm_compute; reflexivity|]. split; [exact Hnone|].
  rewrite Hnone. discriminate.
Qed.

Lemma C7_last_write_wins_witness :
  exists spec' item,
    generatePaths (withPaths (withSchemas
                     {| OpenAPI := "3.0.0"; Info := info0; Servers := [];
                        Paths := ∅; Components_ := {| Schemas := ∅ |} |} ∅) ∅)
      ([] ++ {| Method := "GET"; Path := "/api/users";
                HandlerName := "first"; Tags := ["Old"] |}
          :: [recordOf "POST" "/api/users"] ++
             {| Method := "GET"; Path := "/api/users";
                HandlerName := "second"; Tags := ["New"] |}
          :: [recordOf "GET" "/api/health"])%list = Ok spec' /\
    Paths spec' !! "/api/users" = Some item /\
    getOperation "GET" item =
    Some (generateOperation {| Method := "GET"; Path := "/api/users";
                               HandlerName := "second"; Tags := ["New"] |}) /\
    lookupOperation (Paths spec') "/api/users" "GET" =
    Some (generateOperation {| Method := "GET"; Path := "/api/users";
                               HandlerName := "second"; Tags := ["New"] |}).
Proof.
  apply (C7_last_write_wins _ []
           [recordOf "POST" "/api/users"] [recordOf "GET" "/api/health"]
           {| Method := "GET"; Path := "/api/users";
              HandlerName := "first"; Tags := ["Old"] |}
           {| Method := "GET"; Path := "/api/users";
              HandlerName := "second"; Tags := ["New"] |}).
  - reflexivity.
  - reflexivity.
  - apply list_elem_of_here.
  - constructor; [|constructor]. intros [_ H]. discriminate H.
Defined.

Lemma C10_unlisted_method_witness :
  let route := {| GetPathTemplate := Val "/api/users/{id}";
                  GetMethods := Val ["PATCH"]; subroutes := [] |} in
  extractRoutes [route] = [recordOf "PATCH" "/api/users/{id}"] /\
  (forall (paths : gmap string PathItem) (r : RouteInfo),
     Method r = "PATCH" ->
     addRoute paths r =
     <[Path r := default PathItem0 (paths !! Path r)]> paths) /\
  exists spec,
    GenerateSwagger [route] info0 = Ok spec /\
    Paths spec = {[ "/api/users/{id}" := PathItem0 ]} /\
    (forall m, lookupOperation (Paths spec) "/api/users/{id}" m = None).
Proof.
  apply (C10_unlisted_method "PATCH" "/api/users/{id}" info0).
  unfold verbs. rewrite !not_elem_of_cons. repeat split; try discriminate.
  apply not_elem_of_nil.
Defined.

Lemma document_order_insensitive_witness :
  GenerateSwagger
    [methodRoute "GET" "/api/users"; methodRoute "POST" "/api/users";
     methodRoute "GET" "/api/health"] info0 =
  GenerateSwagger
    [apiPrefixRoute [methodRoute "GET" "/api/health";
                     methodRoute "POST" "/api/users"];
     methodRoute "GET" "/api/users"; methodRoute "GET" "/api/health"] info0.
Proof.
  apply (document_order_insensitive
           [methodRoute "GET" "/api/users"; methodRoute "POST" "/api/users";
            methodRoute "GET" "/api/health"]).
  intros r. vm_compute extractRoutes.
  rewrite !elem_of_cons, !elem_of_nil. tauto.
Defined.

(** ** Operation Builder *)

Lemma responses_keys_witness :
  let keys := dom (generateResponses "PATCH" "/api/users/{id}") in
  "400" ∈ keys /\ "500" ∈ keys /\
  (forall k, k ∈ keys -> k ∈ ["200"; "201"; "404"; "400"; "500"]) /\
  ("404" ∈ keys <->
   "PATCH" = "GET" /\ strings.Contains "/api/users/{id}" "{id}" = true) /\
  ("201" ∈ keys <-> "PATCH" = "POST") /\
  ("200" ∈ keys <-> "PATCH" ∈ ["GET"; "PUT"; "DELETE"]) /\
  ("PATCH" ∉ verbs -> keys = {[ "400"; "500" ]}).
Proof.
  apply (responses_keys "PATCH" "/api/users/{id}"). discriminate.
Defined.

Lemma summary_agrees_with_listing_witness :
  router.getRouteDescription "PUT" "/api/users/{id}" =
  generateSummary "PUT" "/api/users/{id}".
Proof.
  apply (summary_agrees_with_listing "PUT" "/api/users/{id}");
    [discriminate | reflexivity | vm_compute; discriminate].
Defined.

(** ** Serializer *)

Lemma C8_deterministic_output_witness :
  exists spec,
    GenerateSwagger SetupRoutes info0 = Ok spec /\
    MarshalIndent elements compactJSON spec =
    MarshalIndent (fun keys => reverse (elements keys)) compactJSON spec /\
    SaveSwaggerSpec elements compactJSON (gmap string string) writeAlways
      spec "docs/swagger.json" ∅ =
    SaveSwaggerSpec (fun keys => reverse (elements keys)) compactJSON
      (gmap string string) writeAlways spec "docs/swagger.json" ∅.
Proof.
  apply (C8_deterministic_output elements
           (fun keys => reverse (elements keys)) compactJSON
           (gmap string string) writeAlways SetupRoutes info0
           "docs/swagger.json" ∅).
  - intros keys. reflexivity.
  - intros keys. apply reverse_Permutation.
Defined.

Lemma serialized_refs_resolve_witness :
  exists spec,
    GenerateSwagger SetupRoutes info0 = Ok spec /\
    forall ref,
      ref ∈ jsonRefs (specJSON (fun keys => reverse (elements keys)) spec) ->
      envelopeRef ref /\
      is_Some (jsonResolve
                 (specJSON (fun keys => reverse (elements keys)) spec) ref).
Proof.
  apply (serialized_refs_resolve (fun keys => reverse (elements keys))
           SetupRoutes info0).
  intros keys. apply reverse_Permutation.
Defined.

Lemma serialized_paths_sorted_witness :
  exists spec members,
    GenerateSwagger SetupRoutes info0 = Ok spec /\
    jsonMember "paths"
      (specJSON (fun keys => reverse (elements keys)) spec) =
    Some (JObject members) /\
    StronglySorted String.le (members.*1) /\
    NoDup (members.*1) /\
    (forall path,
       path ∈ members.*1 <-> path ∈ Path <$> extractRoutes SetupRoutes).
Proof.
  apply (serialized_paths_sorted (fun keys => reverse (elements keys))
           SetupRoutes info0).
  intros keys. apply reverse_Permutation.
Defined.

(** ** The environment *)

(** A host that only starts with [0.0.0.0] is kept as it is. *)
Example served_document_host_with_port :
  exists spec,
    generateSwaggerSpec {[ "SERVER_HOST" := "0.0.0.0:8080" ]} [] = Ok spec /\
    Servers spec = [ {| srvURL := "http://0.0.0.0:8080:3000";
                        srvDescription := "Development server" |} ].
Proof. eexists. split; vm_compute; reflexivity. Qed.

Lemma getDir_of_file_witness :
  getDir ("app/models" ++ "/" ++ "User.go") = "app/models" /\
  getDir "User.go" = ".".
Proof. apply (getDir_of_file "app/models" "User.go"). reflexivity. Defined.

(** ** Scaffolding *)

(** The output path is a link to a file that exists: the call prints that
    the file was skipped and leaves every file as it was. *)
Lemma scaffold_never_overwrites_witness :
  (forall p c,
     files linkedWorld !! p = Some c ->
     files (print (skipped "app/models/Post.go") linkedWorld) !! p = Some c) /\
  (forall p,
     p <> linkedTarget "app/models/Post.go" ->
     files (print (skipped "app/models/Post.go") linkedWorld) !! p =
     files linkedWorld !! p) /\
  (is_Some (files linkedWorld !! linkedTarget "app/models/Post.go") ->
   Returned = Returned ->
   print (skipped "app/models/Post.go") linkedWorld =
   print (skipped "app/models/Post.go") linkedWorld).
Proof.
  apply (scaffold_never_overwrites string Val sampleExecute (fun p => p)
           (fun _ => None) linkedTarget "internal/templates/model.tpl"
           "app/models/Post.go" "Post").
  vm_compute. reflexivity.
Defined.

(** The output path is a link to a file that does not exist: the file
    created is the one the link points to. *)
Example createFile_through_dangling_link :
  createFileFromTemplate string Val sampleExecute (fun p => p)
    (fun _ => None) linkedTarget "internal/templates/model.tpl"
    "app/models/Post.go" "Post" sampleWorld =
  (writeFile "legacy/post.go" "Post model posts" sampleWorld, Returned).
Proof. vm_compute. reflexivity. Qed.

Lemma MakeModel_twice_witness :
  exists w2,
    MakeModel string Val sampleExecute (fun p => p) (fun _ => None)
      (fun p => p) "Post"
      (fst (MakeModel string Val sampleExecute (fun p => p) (fun _ => None)
              (fun p => p) "Post" sampleWorld)) = (w2, Returned) /\
    files w2 =
    files (fst (MakeModel string Val sampleExecute (fun p => p)
                  (fun _ => None) (fun p => p) "Post" sampleWorld)) /\
    stdout w2 =
    (stdout (fst (MakeModel string Val sampleExecute (fun p => p)
                    (fun _ => None) (fun p => p) "Post" sampleWorld)) ++
     [ skipped "app/models/Post.go";
       skipped "app/controllers/PostController.go";
       filesCreated ])%list.
Proof.
  apply (MakeModel_twice string Val sampleExecute (fun p => p)
           (fun _ => None) (fun p => p) "Post" sampleWorld).
  vm_compute. reflexivity.
Defined.
